(** * StaticLang runtime built-ins ([staticlang/runtime/builtin.c])

    A shallow embedding of the memory and string layer of the StaticLang
    runtime, and the properties of its specification.

    The C functions are written in a small state-and-fault monad over a
    block-structured heap.  A computation that returns [None] has
    undefined behaviour in C (reading a string that is not terminated
    inside its block, writing past the end of a block, releasing a block
    that is not live).  The host allocator ([malloc], [calloc]) is not
    part of the runtime: it is a parameter, constrained only by what the
    C library promises about it. *)

From stdpp Require Import gmap strings list.
From Stdlib Require Import ZArith Lia Ascii.
From Stdlib Require DecimalString DecimalZ.

Local Open Scope Z_scope.

(** ** Data model *)

(** The null pointer, and the string terminator. *)
Definition NULL : Z := 0.
Definition NUL : ascii := Ascii.zero.

(** A heap block: its size in bytes and the bytes written so far.  The
    runtime only writes a block front to back ([strcpy] at offset 0,
    [strcat] at the terminator, the zero fill of [calloc]), so the
    initialised part of a block is a prefix of it; the bytes behind
    [blk_init] are indeterminate. *)
Record block : Type := Block { blk_size : Z; blk_init : list ascii }.

(** The two counters of the DEBUG_MEMORY build. *)
Record ledger : Type := Ledger { allocated_bytes : Z; allocation_count : Z }.

(** One line on the error stream, before formatting. *)
Inductive diag : Type :=
  | DiagAlloc (size ptr : Z) (file : string) (line : Z)
  | DiagFree (ptr : Z) (file : string) (line : Z)
  | DiagStats (bytes count : Z).

(** The heap maps the address of a live block to the block. *)
Record state : Type := State {
  st_heap : gmap Z block;
  st_ledger : ledger;
  st_err : list diag
}.

Definition set_heap (h : gmap Z block) (s : state) : state :=
  State h (st_ledger s) (st_err s).
Definition set_ledger (l : ledger) (s : state) : state :=
  State (st_heap s) l (st_err s).
Definition add_err (d : diag) (s : state) : state :=
  State (st_heap s) (st_ledger s) (st_err s ++ [d]).

(** [static size_t allocated_bytes = 0; static size_t allocation_count = 0;] *)
Definition zero_ledger : ledger := Ledger 0 0.
Definition initial_state : state := State ∅ zero_ledger [].

(** ** The monad of C computations *)

Definition M (A : Type) : Type := state → option (A * state).

Definition ret {A} (a : A) : M A := λ s, Some (a, s).
Definition bind {A B} (m : M A) (k : A → M B) : M B :=
  λ s, match m s with
       | Some (a, s') => k a s'
       | None => None
       end.
Definition fault {A} : M A := λ _, None.
Definition gets {A} (f : state → A) : M A := λ s, Some (f s, s).
Definition modify (f : state → state) : M unit := λ s, Some (tt, f s).
Definition lift {A} (o : option A) : M A :=
  λ s, match o with Some a => Some (a, s) | None => None end.
Definition when (b : bool) (m : M unit) : M unit := if b then m else ret tt.

Notation "x <- m ;; k" := (bind m (λ x, k))
  (at level 100, m at next level, right associativity).
Notation "m ;;; k" := (bind m (λ _, k))
  (at level 100, right associativity).

(** A computation that leaves the ledger as it finds it. *)
Definition keeps_ledger {A} (m : M A) : Prop :=
  ∀ s a s', m s = Some (a, s') → st_ledger s' = st_ledger s.

(** ** Strings in memory *)

(** The bytes in front of the first terminator; [None] when there is no
    terminator among the initialised bytes. *)
Fixpoint scan_cstr (l : list ascii) : option (list ascii) :=
  match l with
  | [] => None
  | c :: l' => if Ascii.eqb c NUL then Some [] else cons c <$> scan_cstr l'
  end.

Definition string_at (h : gmap Z block) (p : Z) : option (list ascii) :=
  b ← h !! p; scan_cstr (blk_init b).

(** Writing [bs] at offset [off] of the initialised prefix. *)
Definition store_bytes (off : nat) (bs init : list ascii) : list ascii :=
  take off init ++ bs ++ drop (off + length bs) init.

Definition code (c : ascii) : Z := Z.of_N (N_of_ascii c).

(** Lexicographic comparison of two terminator-free byte strings, as the
    difference of the first two bytes that differ (the end of a string
    counts as the byte 0). *)
Fixpoint strcmp_bytes (a b : list ascii) : Z :=
  match a, b with
  | [], [] => 0
  | [], d :: _ => 0 - code d
  | c :: _, [] => code c
  | c :: a', d :: b' => if Ascii.eqb c d then strcmp_bytes a' b' else code c - code d
  end.

(** ** The platform

    The width of [size_t] in bits, and the host allocator: asked for [n]
    bytes in heap [h], it answers the address of the new block, or
    [NULL].  The properties below hold for every allocator that meets
    [PlatformOk]. *)
Class Platform : Type := {
  size_bits : Z;
  host_pick : gmap Z block → Z → Z
}.

Section Runtime.

Context {P : Platform}.

Definition SIZE_MAX : Z := 2 ^ size_bits - 1.
Definition PTRDIFF_MAX : Z := 2 ^ (size_bits - 1) - 1.

(** Arithmetic on [size_t] wraps around. *)
Definition wrap (x : Z) : Z := x mod 2 ^ size_bits.

(** *** The C library *)

Definition strlen (p : Z) : M Z :=
  cs <- (λ s, lift (string_at (st_heap s) p) s) ;;
  ret (Z.of_nat (length cs)).

Definition malloc (size : Z) : M Z :=
  h <- gets st_heap ;;
  let p := host_pick h size in
  if p =? NULL then ret NULL
  else modify (set_heap (<[p := Block size []]> h)) ;;; ret p.

(** [calloc] as the C library specifies it: the request fails when
    [nmemb * size] does not fit [size_t], and the bytes of a block that
    is granted are all zero. *)
Definition calloc (nmemb size : Z) : M Z :=
  if SIZE_MAX <? nmemb * size then ret NULL
  else
    h <- gets st_heap ;;
    let p := host_pick h (nmemb * size) in
    if p =? NULL then ret NULL
    else
      modify (set_heap
        (<[p := Block (nmemb * size) (replicate (Z.to_nat (nmemb * size)) NUL)]> h)) ;;;
      ret p.

(** [free(NULL)] does nothing; a pointer that is not a live block faults. *)
Definition free (p : Z) : M unit :=
  if p =? NULL then ret tt
  else
    h <- gets st_heap ;;
    match h !! p with
    | Some _ => modify (set_heap (delete p h))
    | None => fault
    end.

(** Writing the string [cs] and its terminator into block [dst] at
    offset [off], which [strcpy] and [strcat] take inside the
    initialised prefix; the block must be live and large enough. *)
Definition write_string (dst : Z) (off : nat) (cs : list ascii) : M unit :=
  h <- gets st_heap ;;
  match h !! dst with
  | Some b =>
      if Z.of_nat off + Z.of_nat (length cs) + 1 <=? blk_size b
      then modify (set_heap
             (<[dst := Block (blk_size b) (store_bytes off (cs ++ [NUL]) (blk_init b))]> h))
      else fault
  | None => fault
  end.

(** Source and destination must not overlap. *)
Definition strcpy (dst src : Z) : M unit :=
  if dst =? src then fault
  else
    cs <- (λ s, lift (string_at (st_heap s) src) s) ;;
    write_string dst 0 cs.

Definition strcat (dst src : Z) : M unit :=
  if dst =? src then fault
  else
    ds <- (λ s, lift (string_at (st_heap s) dst) s) ;;
    cs <- (λ s, lift (string_at (st_heap s) src) s) ;;
    write_string dst (length ds) cs.

Definition strcmp (p q : Z) : M Z :=
  a <- (λ s, lift (string_at (st_heap s) p) s) ;;
  b <- (λ s, lift (string_at (st_heap s) q) s) ;;
  ret (strcmp_bytes a b).

Definition fprintf_stderr (d : diag) : M unit := modify (add_err d).

(** *** The runtime *)

Definition sl_malloc (size : Z) : M Z := malloc size.

Definition sl_free (ptr : Z) : M unit :=
  when (negb (ptr =? NULL)) (free ptr).

Definition sl_alloc_string (str : Z) : M Z :=
  if str =? NULL then ret NULL
  else
    len <- strlen str ;;
    result <- malloc (wrap (len + 1)) ;;
    when (negb (result =? NULL)) (strcpy result str) ;;;
    ret result.

Definition sl_concat_string (str1 str2 : Z) : M Z :=
  if (str1 =? NULL) && (str2 =? NULL) then ret NULL
  else if str1 =? NULL then sl_alloc_string str2
  else if str2 =? NULL then sl_alloc_string str1
  else
    len1 <- strlen str1 ;;
    len2 <- strlen str2 ;;
    result <- malloc (wrap (wrap (len1 + len2) + 1)) ;;
    when (negb (result =? NULL))
      (strcpy result str1 ;;; strcat result str2) ;;;
    ret result.

Definition sl_compare_string (str1 str2 : Z) : M Z :=
  if (str1 =? NULL) && (str2 =? NULL) then ret 0
  else if (str1 =? NULL) || (str2 =? NULL) then ret 1
  else strcmp str1 str2.

Definition sl_alloc_array (element_size count : Z) : M Z :=
  calloc count element_size.

(** *** The DEBUG_MEMORY build *)

Definition sl_debug_malloc (size : Z) (file : string) (line : Z) : M Z :=
  ptr <- malloc size ;;
  when (negb (ptr =? NULL))
    (modify (λ s, set_ledger
               (Ledger (wrap (allocated_bytes (st_ledger s) + size))
                       (wrap (allocation_count (st_ledger s) + 1))) s) ;;;
     fprintf_stderr (DiagAlloc size ptr file line)) ;;;
  ret ptr.

Definition sl_debug_free (ptr : Z) (file : string) (line : Z) : M unit :=
  when (negb (ptr =? NULL))
    (modify (λ s, set_ledger
               (Ledger (allocated_bytes (st_ledger s))
                       (wrap (allocation_count (st_ledger s) - 1))) s) ;;;
     fprintf_stderr (DiagFree ptr file line) ;;;
     free ptr).

Definition sl_print_memory_stats : M unit :=
  l <- gets st_ledger ;;
  fprintf_stderr (DiagStats (allocated_bytes l) (allocation_count l)).

(** *** Well-formed heaps and hosts *)

(** No object exceeds [PTRDIFF_MAX] bytes, and every block sits at a
    non-null address that fits a pointer. *)
Definition block_ok (b : block) : Prop :=
  Z.of_nat (length (blk_init b)) ≤ blk_size b ≤ PTRDIFF_MAX.

Definition heap_wf (h : gmap Z block) : Prop :=
  map_Forall (λ a b, 0 < a ≤ SIZE_MAX ∧ block_ok b) h.

End Runtime.

(** ** Sequences of calls *)

(** [m] called [n] times in a row. *)
Fixpoint repeat_call (n : nat) (m : M unit) : M unit :=
  match n with
  | O => ret tt
  | S n' => m ;;; repeat_call n' m
  end.

(** A call of the debug interface, and what a call did: the size asked
    for and the pointer returned, the pointer released, or a report. *)
Inductive call : Type :=
  | CallAlloc (size : Z) (file : string) (line : Z)
  | CallFree (ptr : Z) (file : string) (line : Z)
  | CallStats.

Inductive event : Type :=
  | EvAlloc (size ptr : Z)
  | EvFree (ptr : Z)
  | EvStats.

Section Traces.

Context {P : Platform}.

Definition exec_call (c : call) : M event :=
  match c with
  | CallAlloc size file line =>
      ptr <- sl_debug_malloc size file line ;; ret (EvAlloc size ptr)
  | CallFree ptr file line =>
      sl_debug_free ptr file line ;;; ret (EvFree ptr)
  | CallStats =>
      sl_print_memory_stats ;;; ret EvStats
  end.

Fixpoint exec_calls (cs : list call) : M (list event) :=
  match cs with
  | [] => ret []
  | c :: cs' =>
      e <- exec_call c ;;
      es <- exec_calls cs' ;;
      ret (e :: es)
  end.

(** The ledger agrees with the bookkeeping of a run: [live] are the
    blocks that tracked allocations returned and that are not released
    yet, [total] the bytes asked for so far. *)
Record tracked (live : gset Z) (total : Z) (s : state) : Prop := {
  tracked_wf : heap_wf (st_heap s);
  tracked_live : live ⊆ dom (st_heap s);
  tracked_count : allocation_count (st_ledger s) = Z.of_nat (size live);
  tracked_bytes : allocated_bytes (st_ledger s) = wrap total
}.

End Traces.

(** The number of allocations, the number of releases and the bytes asked
    for in a trace. *)
Fixpoint allocations (tr : list event) : Z :=
  match tr with
  | [] => 0
  | EvAlloc _ _ :: tr' => 1 + allocations tr'
  | _ :: tr' => allocations tr'
  end.

Fixpoint releases (tr : list event) : Z :=
  match tr with
  | [] => 0
  | EvFree _ :: tr' => 1 + releases tr'
  | _ :: tr' => releases tr'
  end.

Fixpoint requested (tr : list event) : Z :=
  match tr with
  | [] => 0
  | EvAlloc size _ :: tr' => size + requested tr'
  | _ :: tr' => requested tr'
  end.

(** The bytes of the allocations that the host granted. *)
Fixpoint granted (tr : list event) : Z :=
  match tr with
  | [] => 0
  | EvAlloc size ptr :: tr' => (if ptr =? NULL then 0 else size) + granted tr'
  | _ :: tr' => granted tr'
  end.

(** A trace is paired when every allocation succeeds and every release
    is of a block that an earlier allocation of the trace returned and
    that no release has given back since; [live] is the set of such
    blocks when the trace starts.  Reports may come in between. *)
Fixpoint paired (live : gset Z) (tr : list event) : bool :=
  match tr with
  | [] => true
  | EvAlloc _ ptr :: tr' => negb (ptr =? NULL) && paired (live ∪ {[ptr]}) tr'
  | EvFree ptr :: tr' => bool_decide (ptr ∈ live) && paired (live ∖ {[ptr]}) tr'
  | EvStats :: tr' => paired live tr'
  end.

(** What the C library promises of the host: a new block is at a fresh,
    non-null address, and no object exceeds [PTRDIFF_MAX] bytes. *)
Class PlatformOk (P : Platform) : Prop := {
  size_bits_min : 16 ≤ size_bits;
  host_pick_ok : ∀ h n,
    heap_wf h → host_pick h n ≠ NULL →
    h !! host_pick h n = None ∧ 0 < host_pick h n ≤ SIZE_MAX ∧ 0 ≤ n ≤ PTRDIFF_MAX
}.

(** ** A concrete host allocator

    An arena of 255 addresses: the lowest free one is handed out, and a
    request beyond the object-size limit is refused. *)
Definition arena_pick (bits : Z) (h : gmap Z block) (n : Z) : Z :=
  if bool_decide (0 ≤ n ≤ 2 ^ (bits - 1) - 1)
  then default NULL (List.find (λ a, bool_decide (h !! a = None)) (seqZ 1 255))
  else NULL.

Definition arena (bits : Z) : Platform :=
  {| size_bits := bits; host_pick := arena_pick bits |}.

(** A heap holding the strings "foo" and "bar". *)
Definition foo_bar_heap : gmap Z block :=
  <[1 := Block 4 (String.list_ascii_of_string "foo" ++ [NUL])]>
  (<[2 := Block 8 (String.list_ascii_of_string "bar" ++ [NUL])]> ∅).
Definition foo_bar_state : state := State foo_bar_heap zero_ledger [].

(** Four rounds of allocating and releasing one GiB. *)
Definition GiB : Z := 2 ^ 30.
Definition round (line : Z) : list call :=
  [CallAlloc GiB "main.sl" line; CallFree 1 "main.sl" (line + 1)].
Definition churn : list call := round 1 ++ round 3 ++ round 5 ++ round 7.

(** Two allocations, a report and one release. *)
Definition small_run : list call :=
  [CallAlloc 16 "main.sl" 1; CallAlloc 32 "main.sl" 2; CallStats;
   CallFree 1 "main.sl" 3].

(** ** Standard output

    The print functions write to the standard output stream, which the
    memory operations never touch: a world is the memory state and the
    bytes written so far. *)
Record world : Type := World { w_mem : state; w_out : list ascii }.

Definition newline : ascii := "010"%char.

(** [printf("...\n", ...)] with the text that the conversion produced. *)
Definition printf_line (text : list ascii) (w : world) : world :=
  World (w_mem w) (w_out w ++ text ++ [newline]).

(** The conversion [%d]: a minus sign for a negative value, and the
    decimal digits without leading zeros. *)
Definition decimal (value : Z) : list ascii :=
  String.list_ascii_of_string
    (DecimalString.NilZero.string_of_int (Z.to_int value)).

(** Reading a line of decimal text back. *)
Definition parse_decimal (text : list ascii) : option Z :=
  Z.of_int <$>
    DecimalString.NilZero.int_of_string (String.string_of_list_ascii text).

Definition sl_print_int (value : Z) (w : world) : option world :=
  Some (printf_line (decimal value) w).

Definition sl_print_string (value : Z) (w : world) : option world :=
  if negb (value =? NULL) then
    match string_at (st_heap (w_mem w)) value with
    | Some cs => Some (printf_line cs w)
    | None => None
    end
  else Some w.

(** A memory operation run in a world. *)
Definition in_world {A} (m : M A) (w : world) : option (A * world) :=
  match m (w_mem w) with
  | Some (a, s') => Some (a, World s' (w_out w))
  | None => None
  end.

(** The world of [foo_bar_state] before anything is printed. *)
Definition foo_bar_world : world := World foo_bar_state [].

(** ** Views of the memory *)

(** The bytes a string argument stands for: none for NULL. *)
Definition content_of (h : gmap Z block) (p : Z) : option (list ascii) :=
  if p =? NULL then Some [] else string_at h p.

Section Views.

Context {P : Platform}.

(** An operation that allocates at most one block: it returns NULL and
    leaves the state as it was, or returns a block that was not live
    before and changes nothing else. *)
Definition allocates (m : M Z) : Prop :=
  ∀ s p s', heap_wf (st_heap s) → m s = Some (p, s') →
    (p = NULL ∧ s' = s) ∨
    (0 < p ≤ SIZE_MAX ∧ st_heap s !! p = None ∧
     ∃ b, block_ok b ∧ s' = set_heap (<[p := b]> (st_heap s)) s).

(** An operation that keeps the heap well formed. *)
Definition keeps_wf {A} (m : M A) : Prop :=
  ∀ s a s', heap_wf (st_heap s) → m s = Some (a, s') → heap_wf (st_heap s').

(** What a line of the error stream says happened to the ledger. *)
Definition replay (l : ledger) (d : diag) : ledger :=
  match d with
  | DiagAlloc size _ _ _ =>
      Ledger (wrap (allocated_bytes l + size)) (wrap (allocation_count l + 1))
  | DiagFree _ _ _ =>
      Ledger (allocated_bytes l) (wrap (allocation_count l - 1))
  | DiagStats _ _ => l
  end.

End Views.

(** The allocations granted, the releases of a block other than NULL
    and the reports of a trace. *)
Fixpoint grants (tr : list event) : Z :=
  match tr with
  | [] => 0
  | EvAlloc _ ptr :: tr' => (if ptr =? NULL then 0 else 1) + grants tr'
  | _ :: tr' => grants tr'
  end.

Fixpoint drops (tr : list event) : Z :=
  match tr with
  | [] => 0
  | EvFree ptr :: tr' => (if ptr =? NULL then 0 else 1) + drops tr'
  | _ :: tr' => drops tr'
  end.

Fixpoint reports (tr : list event) : Z :=
  match tr with
  | [] => 0
  | EvStats :: tr' => 1 + reports tr'
  | _ :: tr' => reports tr'
  end.

(** * Properties *)

(** Unfolding the monad. *)
Ltac munfold :=
  unfold sl_malloc, sl_free, sl_alloc_string, sl_concat_string,
    sl_compare_string, sl_alloc_array, sl_debug_malloc, sl_debug_free,
    sl_print_memory_stats, strlen, malloc, calloc, free, strcpy, strcat,
    strcmp, write_string, fprintf_stderr, when, bind, ret, gets, modify,
    lift, fault in *.

Lemma eqb_NUL_code c : Ascii.eqb c NUL = false → 0 < code c.
Proof.
  intros Hc. unfold code.
  destruct (N_of_ascii c) eqn:E; [|lia].
  exfalso. apply Ascii.eqb_neq in Hc. apply Hc.
  rewrite <- (ascii_N_embedding c), E. reflexivity.
Qed.

Lemma code_inj c d : code c = code d → c = d.
Proof.
  unfold code. intros H.
  rewrite <- (ascii_N_embedding c), <- (ascii_N_embedding d). f_equal. lia.
Qed.

Lemma scan_cstr_Some l cs :
  scan_cstr l = Some cs →
  Forall (λ c, Ascii.eqb c NUL = false) cs ∧ ∃ rest, l = cs ++ NUL :: rest.
Proof.
  revert cs. induction l as [|c l IH]; intros cs; simpl; [done|].
  destruct (Ascii.eqb c NUL) eqn:E.
  - intros [= <-]. split; [constructor|].
    apply Ascii.eqb_eq in E. subst c. by exists l.
  - destruct (scan_cstr l) as [cs'|]; simpl; [|done].
    intros [= <-]. destruct (IH cs' eq_refl) as [Hall [rest ->]].
    split; [by constructor|]. by exists rest.
Qed.

Lemma scan_cstr_app cs rest :
  Forall (λ c, Ascii.eqb c NUL = false) cs →
  scan_cstr (cs ++ NUL :: rest) = Some cs.
Proof.
  induction 1 as [|c cs Hc _ IH]; simpl; [done|].
  by rewrite Hc, IH.
Qed.

Lemma scan_cstr_length l cs :
  scan_cstr l = Some cs → (length cs < length l)%nat.
Proof.
  intros H. apply scan_cstr_Some in H as [_ [rest ->]].
  rewrite length_app. simpl. lia.
Qed.

(** Comparing terminator-free strings gives 0 exactly on equal strings. *)
Lemma strcmp_bytes_zero a b :
  Forall (λ c, Ascii.eqb c NUL = false) a →
  Forall (λ c, Ascii.eqb c NUL = false) b →
  strcmp_bytes a b = 0 ↔ a = b.
Proof.
  intros Ha. revert b. induction Ha as [|c a Hc Ha IH]; intros b Hb.
  - destruct Hb as [|d b Hd Hb]; simpl; [done|].
    apply eqb_NUL_code in Hd. split; [lia|done].
  - destruct Hb as [|d b Hd Hb]; simpl.
    + apply eqb_NUL_code in Hc. split; [lia|done].
    + destruct (Ascii.eqb c d) eqn:E.
      * apply Ascii.eqb_eq in E. subst d. rewrite (IH b Hb).
        split; [by intros ->|by intros [= ->]].
      * apply Ascii.eqb_neq in E. split.
        -- intros H. exfalso. apply E, code_inj. lia.
        -- by intros [= ? ?].
Qed.

Section Properties.

Context {P : Platform}.


(** ** Comparison *)

(** C9: when exactly one of the two arguments of compare is NULL, the
    result is the constant 1, whichever side is NULL and whatever the
    other string holds (it is not read, and the state is untouched). *)
Theorem compare_one_null_is_one (p : Z) (s : state) :
  p ≠ NULL →
  sl_compare_string NULL p s = Some (1, s) ∧
  sl_compare_string p NULL s = Some (1, s).
Proof.
  intros Hp. apply Z.eqb_neq in Hp.
  unfold sl_compare_string, ret. simpl.
  rewrite Hp. by split.
Qed.

(** C3: compare returns 0 when both arguments are NULL; a nonzero
    value, the same for either side, when exactly one is NULL; and for
    two strings the lexicographic comparison of their bytes, which is
    0 exactly when the contents are equal. *)
Theorem sl_compare_string_spec (a b : Z) (s : state) :
  sl_compare_string NULL NULL s = Some (0, s) ∧
  (a ≠ NULL →
     ∃ r, r ≠ 0 ∧ sl_compare_string NULL a s = Some (r, s)
                ∧ sl_compare_string a NULL s = Some (r, s)) ∧
  (∀ ca cb,
     a ≠ NULL → b ≠ NULL →
     string_at (st_heap s) a = Some ca →
     string_at (st_heap s) b = Some cb →
     sl_compare_string a b s = Some (strcmp_bytes ca cb, s) ∧
     (strcmp_bytes ca cb = 0 ↔ ca = cb)).
Proof.
  split; [done|]. split.
  - intros Ha. exists 1. split; [done|].
    apply Z.eqb_neq in Ha. unfold sl_compare_string, ret. simpl.
    rewrite Ha. by split.
  - intros ca cb Ha Hb Hca Hcb. split.
    + apply Z.eqb_neq in Ha, Hb. munfold. rewrite Ha, Hb. simpl.
      by rewrite Hca, Hcb.
    + unfold string_at in Hca, Hcb.
      destruct (st_heap s !! a) as [ba|]; [|done].
      destruct (st_heap s !! b) as [bb|]; [|done]. simpl in *.
      apply scan_cstr_Some in Hca as [Hca _], Hcb as [Hcb _].
      by apply strcmp_bytes_zero.
Qed.

(** ** Release *)

Lemma repeat_call_noop (m : M unit) (s : state) (n : nat) :
  m s = Some (tt, s) → repeat_call n m s = Some (tt, s).
Proof.
  intros Hm. induction n as [|n IH]; simpl; [done|].
  unfold bind. by rewrite Hm.
Qed.

(** C5: release called with NULL does nothing: it returns normally and
    leaves the whole state (heap, ledger, error stream) as it was, once
    or any number of times in a row; the same holds for the tracked
    release of the debug build. *)
Theorem sl_free_null_noop (n : nat) (s : state) :
  sl_free NULL s = Some (tt, s) ∧
  repeat_call n (sl_free NULL) s = Some (tt, s) ∧
  (∀ file line, repeat_call n (sl_debug_free NULL file line) s = Some (tt, s)).
Proof.
  split; [done|]. split; [by apply repeat_call_noop|].
  intros file line. by apply repeat_call_noop.
Qed.



(** ** The platform's limits *)

Context {HP : PlatformOk P}.

Lemma size_limits : SIZE_MAX = 2 * PTRDIFF_MAX + 1 ∧ 32767 ≤ PTRDIFF_MAX.
Proof.
  pose proof size_bits_min as Hmin. unfold SIZE_MAX, PTRDIFF_MAX.
  assert (2 ^ size_bits = 2 * 2 ^ (size_bits - 1)) as ->.
  { rewrite <- Z.pow_succ_r by lia. f_equal. lia. }
  assert (2 ^ 15 ≤ 2 ^ (size_bits - 1)) by (apply Z.pow_le_mono_r; lia).
  lia.
Qed.

Lemma wrap_small (x : Z) : 0 ≤ x ≤ SIZE_MAX → wrap x = x.
Proof. unfold wrap, SIZE_MAX. intros H. apply Z.mod_small. lia. Qed.

Lemma string_at_inv (h : gmap Z block) p cs :
  string_at h p = Some cs →
  ∃ b, h !! p = Some b ∧ scan_cstr (blk_init b) = Some cs.
Proof.
  unfold string_at. destruct (h !! p) as [b|]; simpl; [|done].
  intros H. by exists b.
Qed.

(** A string in a well-formed heap, terminator included, fits an object. *)
Lemma string_length_bound (h : gmap Z block) p cs :
  heap_wf h → string_at h p = Some cs →
  Z.of_nat (length cs) + 1 ≤ PTRDIFF_MAX.
Proof.
  intros Hwf H. apply string_at_inv in H as (b & Hb & Hs).
  apply scan_cstr_length in Hs. destruct (Hwf p b Hb) as [_ Hok].
  unfold block_ok in Hok. lia.
Qed.

(** ** Allocation *)

Lemma malloc_spec (n : Z) (s : state) :
  heap_wf (st_heap s) →
  (host_pick (st_heap s) n = NULL ∧ malloc n s = Some (NULL, s)) ∨
  (∃ p, host_pick (st_heap s) n = p ∧ p ≠ NULL ∧ st_heap s !! p = None ∧
        0 < p ≤ SIZE_MAX ∧ 0 ≤ n ≤ PTRDIFF_MAX ∧
        malloc n s = Some (p, set_heap (<[p := Block n []]> (st_heap s)) s)).
Proof.
  intros Hwf. munfold.
  destruct (host_pick (st_heap s) n =? NULL) eqn:E.
  - left. by apply Z.eqb_eq in E.
  - right. apply Z.eqb_neq in E.
    destruct (host_pick_ok _ n Hwf E) as (? & ? & ?). eauto 10.
Qed.

Lemma heap_wf_insert (h : gmap Z block) p b :
  heap_wf h → 0 < p ≤ SIZE_MAX → block_ok b → heap_wf (<[p := b]> h).
Proof. intros Hwf Hp Hb. by apply map_Forall_insert_2. Qed.

Lemma heap_wf_delete (h : gmap Z block) p :
  heap_wf h → heap_wf (delete p h).
Proof. intros Hwf. by apply map_Forall_delete. Qed.

(** ** Copying strings into a fresh block *)

Lemma string_at_insert_ne (h : gmap Z block) p b q :
  p ≠ q → string_at (<[p := b]> h) q = string_at h q.
Proof. intros Hne. unfold string_at. by rewrite lookup_insert_ne. Qed.

Lemma string_at_insert_eq (h : gmap Z block) p b :
  string_at (<[p := b]> h) p = scan_cstr (blk_init b).
Proof. unfold string_at. by rewrite lookup_insert_eq. Qed.

Lemma strcpy_fresh h l e p n src cs :
  p ≠ src → string_at h src = Some cs → h !! p = None →
  Z.of_nat (length cs) + 1 ≤ n →
  strcpy p src (State (<[p := Block n []]> h) l e)
  = Some (tt, State (<[p := Block n (cs ++ [NUL])]> h) l e).
Proof.
  intros Hne Hsrc Hp Hn. munfold.
  apply Z.eqb_neq in Hne as Hne'. rewrite Hne'. cbn [st_heap].
  rewrite string_at_insert_ne, Hsrc by done. cbn [st_heap].
  rewrite lookup_insert_eq. cbn [blk_size blk_init].
  destruct (Z.leb_spec (Z.of_nat 0 + Z.of_nat (length cs) + 1) n); [|lia].
  unfold set_heap. cbn [st_heap st_ledger st_err].
  rewrite insert_insert_eq.
  unfold store_bytes. simpl. by rewrite drop_nil, app_nil_r.
Qed.

Lemma strcat_fresh h l e p n ds src cs :
  p ≠ src → Forall (λ c, Ascii.eqb c NUL = false) ds →
  string_at h src = Some cs → h !! p = None →
  Z.of_nat (length ds) + Z.of_nat (length cs) + 1 ≤ n →
  strcat p src (State (<[p := Block n (ds ++ [NUL])]> h) l e)
  = Some (tt, State (<[p := Block n (ds ++ cs ++ [NUL])]> h) l e).
Proof.
  intros Hne Hds Hsrc Hp Hn. munfold.
  apply Z.eqb_neq in Hne as Hne'. rewrite Hne'. cbn [st_heap].
  rewrite string_at_insert_eq. cbn [blk_init].
  rewrite (scan_cstr_app ds [] Hds). cbn [st_heap].
  rewrite string_at_insert_ne, Hsrc by done. cbn [st_heap].
  rewrite lookup_insert_eq. cbn [blk_size blk_init].
  destruct (Z.leb_spec (Z.of_nat (length ds) + Z.of_nat (length cs) + 1) n); [|lia].
  unfold set_heap. cbn [st_heap st_ledger st_err].
  rewrite insert_insert_eq.
  unfold store_bytes. rewrite take_app_length.
  rewrite drop_ge; [by rewrite app_nil_r|].
  rewrite !length_app. simpl. lia.
Qed.




(** ** String construction *)

(** What [sl_alloc_string] computes on a string: one request of
    [length + 1] bytes to the host, and the copy. *)
Lemma sl_alloc_string_run (str : Z) (s : state) cs :
  heap_wf (st_heap s) → str ≠ NULL →
  string_at (st_heap s) str = Some cs →
  sl_alloc_string str s =
    Some (let n := Z.of_nat (length cs) + 1 in
          let p := host_pick (st_heap s) n in
          if p =? NULL then (NULL, s)
          else (p, set_heap (<[p := Block n (cs ++ [NUL])]> (st_heap s)) s)).
Proof.
  intros Hwf Hstr Hcs.
  pose proof (string_length_bound _ _ _ Hwf Hcs) as Hlen.
  pose proof size_limits as [Hmax Hpd].
  unfold sl_alloc_string. apply Z.eqb_neq in Hstr as Hstr'. rewrite Hstr'.
  unfold strlen, lift. unfold bind at 1 2. rewrite Hcs. unfold ret at 1.
  rewrite wrap_small by lia. unfold bind at 1.
  destruct (malloc_spec (Z.of_nat (length cs) + 1) s Hwf)
    as [[Hp Hm]|(p & Hp & Hnz & Hfresh & _ & _ & Hm)]; rewrite Hm, Hp; cbn zeta.
  - done.
  - apply Z.eqb_neq in Hnz as Hnz'. rewrite Hnz'. unfold when, negb, bind.
    destruct s as [h l e]. unfold set_heap. cbn [st_heap st_ledger st_err] in *.
    rewrite (strcpy_fresh h l e p _ str cs); [done| |done|done|lia].
    intros ->. apply string_at_inv in Hcs as (b & Hb & _). congruence.
Qed.

(** C2: make_string returns NULL on NULL; on a string it asks the host
    for exactly length+1 bytes and returns NULL when the host refuses,
    and otherwise the new block, of that size, holding the bytes of the
    source and the terminator. *)
Theorem sl_alloc_string_spec (str : Z) (s : state) :
  heap_wf (st_heap s) →
  sl_alloc_string NULL s = Some (NULL, s) ∧
  (∀ cs, str ≠ NULL → string_at (st_heap s) str = Some cs →
     let n := Z.of_nat (length cs) + 1 in
     (host_pick (st_heap s) n = NULL ∧
      sl_alloc_string str s = Some (NULL, s)) ∨
     (∃ p, host_pick (st_heap s) n = p ∧ p ≠ NULL ∧ st_heap s !! p = None ∧
           sl_alloc_string str s
           = Some (p, set_heap (<[p := Block n (cs ++ [NUL])]> (st_heap s)) s))).
Proof.
  intros Hwf. split; [done|]. intros cs Hstr Hcs n.
  rewrite (sl_alloc_string_run str s cs Hwf Hstr Hcs). cbn zeta. fold n.
  destruct (host_pick (st_heap s) n =? NULL) eqn:E.
  - left. by apply Z.eqb_eq in E.
  - right. apply Z.eqb_neq in E. exists (host_pick (st_heap s) n).
    destruct (host_pick_ok _ n Hwf E) as (Hfresh & _). done.
Qed.

(** C6: concat with exactly one NULL operand is make_string of the
    other operand, on either side: it asks the host for exactly
    length+1 bytes.  It returns NULL, with the state as it was, only
    when the host refuses; otherwise it returns the block that the host
    granted, which was not live before, is not the operand, and holds
    the bytes of the operand and the terminator, while the operand's
    own block is left as it was. *)
Theorem concat_one_null_copies (str : Z) (s : state) cs :
  heap_wf (st_heap s) → str ≠ NULL →
  string_at (st_heap s) str = Some cs →
  sl_concat_string NULL str s = sl_alloc_string str s ∧
  sl_concat_string str NULL s = sl_alloc_string str s ∧
  let n := Z.of_nat (length cs) + 1 in
  ((host_pick (st_heap s) n = NULL ∧
    sl_concat_string NULL str s = Some (NULL, s) ∧
    sl_concat_string str NULL s = Some (NULL, s)) ∨
   (∃ p s', host_pick (st_heap s) n = p ∧ p ≠ NULL ∧
            s' = set_heap (<[p := Block n (cs ++ [NUL])]> (st_heap s)) s ∧
            sl_concat_string NULL str s = Some (p, s') ∧
            sl_concat_string str NULL s = Some (p, s') ∧
            p ≠ str ∧
            st_heap s !! p = None ∧
            st_heap s' !! str = st_heap s !! str ∧
            string_at (st_heap s') str = Some cs ∧
            string_at (st_heap s') p = Some cs)).
Proof.
  intros Hwf Hstr Hcs. apply Z.eqb_neq in Hstr as Hstr'.
  assert (sl_concat_string NULL str s = sl_alloc_string str s) as Hl.
  { unfold sl_concat_string. simpl. by rewrite Hstr'. }
  assert (sl_concat_string str NULL s = sl_alloc_string str s) as Hr.
  { unfold sl_concat_string. rewrite Hstr'. by simpl. }
  split; [exact Hl|]. split; [exact Hr|]. intros n. rewrite Hl, Hr.
  rewrite (sl_alloc_string_run str s cs Hwf Hstr Hcs). cbn zeta. fold n.
  destruct (host_pick (st_heap s) n =? NULL) eqn:E.
  - left. apply Z.eqb_eq in E. done.
  - right. apply Z.eqb_neq in E.
    destruct (host_pick_ok _ n Hwf E) as (Hfresh & _).
    assert (host_pick (st_heap s) n ≠ str) as Hne.
    { intros Heq. rewrite Heq in Hfresh.
      apply string_at_inv in Hcs as (b & Hb & _). congruence. }
    eexists _, _. split; [done|]. split; [done|]. split; [done|].
    split; [done|]. split; [done|]. split; [done|]. split; [done|].
    destruct s as [h l e]. unfold set_heap. cbn [st_heap] in *.
    split; [by rewrite lookup_insert_ne|].
    split; [by rewrite string_at_insert_ne|].
    rewrite string_at_insert_eq. cbn [blk_init].
    apply string_at_inv in Hcs as (b & _ & Hs).
    apply scan_cstr_Some in Hs as [Hall _]. by apply scan_cstr_app.
Qed.

(** ** Concatenation *)

(** What [sl_concat_string] computes on two strings: one request of
    [length a + length b + 1] bytes to the host, and the two copies. *)
Lemma sl_concat_string_run (a b : Z) (s : state) ca cb :
  heap_wf (st_heap s) → a ≠ NULL → b ≠ NULL →
  string_at (st_heap s) a = Some ca →
  string_at (st_heap s) b = Some cb →
  sl_concat_string a b s =
    Some (let n := Z.of_nat (length ca) + Z.of_nat (length cb) + 1 in
          let p := host_pick (st_heap s) n in
          if p =? NULL then (NULL, s)
          else (p, set_heap
                     (<[p := Block n (ca ++ cb ++ [NUL])]> (st_heap s)) s)).
Proof.
  intros Hwf Ha Hb Hca Hcb.
  pose proof (string_length_bound _ _ _ Hwf Hca) as Hla.
  pose proof (string_length_bound _ _ _ Hwf Hcb) as Hlb.
  pose proof size_limits as [Hmax Hpd].
  apply Z.eqb_neq in Ha as Ha', Hb as Hb'.
  unfold sl_concat_string. rewrite Ha', Hb'. cbn [andb].
  unfold strlen, lift. unfold bind at 1 2. rewrite Hca. unfold ret at 1.
  unfold bind at 1 2. rewrite Hcb. unfold ret at 1.
  rewrite (wrap_small (Z.of_nat (length ca) + Z.of_nat (length cb))) by lia.
  rewrite wrap_small by lia.
  cbn zeta. set (n := Z.of_nat (length ca) + Z.of_nat (length cb) + 1).
  unfold bind at 1.
  destruct (malloc_spec n s Hwf)
    as [[Hp Hm]|(p & Hp & Hnz & Hfresh & _ & _ & Hm)]; rewrite Hm, Hp.
  - done.
  - apply Z.eqb_neq in Hnz as Hnz'. rewrite Hnz'. unfold when, negb, bind.
    assert (p ≠ a) as Hpa.
    { intros ->. apply string_at_inv in Hca as (? & ? & _). congruence. }
    assert (p ≠ b) as Hpb.
    { intros ->. apply string_at_inv in Hcb as (? & ? & _). congruence. }
    destruct s as [h l e]. unfold set_heap. cbn [st_heap st_ledger st_err] in *.
    rewrite (strcpy_fresh h l e p n a ca) by (done || lia).
    apply string_at_inv in Hca as Hca'. destruct Hca' as (ba & _ & Hsa).
    apply scan_cstr_Some in Hsa as [Hall _].
    rewrite (strcat_fresh h l e p n ca b cb) by (done || lia). done.
Qed.


(** ** Arrays *)

(** C7: allocate_array returns NULL when element_size * count does not
    fit size_t; in every case it returns NULL and leaves the state as
    it was, or returns a new block of element_size * count bytes, all
    of them zero. *)
Theorem sl_alloc_array_spec (element_size count : Z) (s : state) :
  heap_wf (st_heap s) →
  let n := element_size * count in
  (SIZE_MAX < n → sl_alloc_array element_size count s = Some (NULL, s)) ∧
  (sl_alloc_array element_size count s = Some (NULL, s) ∨
   ∃ p, p ≠ NULL ∧ st_heap s !! p = None ∧ 0 ≤ n ≤ SIZE_MAX ∧
        sl_alloc_array element_size count s
        = Some (p, set_heap
                     (<[p := Block n (replicate (Z.to_nat n) NUL)]>
                        (st_heap s)) s)).
Proof.
  intros Hwf n. unfold sl_alloc_array, calloc.
  rewrite (Z.mul_comm count element_size). fold n.
  destruct (Z.ltb_spec SIZE_MAX n) as [Hov|Hfit].
  - split; [done|]. by left.
  - split; [lia|]. munfold.
    destruct (host_pick (st_heap s) n =? NULL) eqn:E; [by left|].
    right. apply Z.eqb_neq in E.
    destruct (host_pick_ok _ n Hwf E) as (Hfresh & _ & Hn).
    exists (host_pick (st_heap s) n). repeat split; done || lia.
Qed.




(** ** The ledger: single calls *)

Lemma sl_debug_malloc_run (size : Z) file line (s : state) :
  sl_debug_malloc size file line s =
    Some (let p := host_pick (st_heap s) size in
          if p =? NULL then (NULL, s)
          else (p, State (<[p := Block size []]> (st_heap s))
                     (Ledger (wrap (allocated_bytes (st_ledger s) + size))
                             (wrap (allocation_count (st_ledger s) + 1)))
                     (st_err s ++ [DiagAlloc size p file line]))).
Proof.
  munfold. cbn zeta.
  destruct (host_pick (st_heap s) size =? NULL) eqn:E; [done|].
  by rewrite E.
Qed.

Lemma sl_debug_free_run (ptr : Z) file line (s : state) :
  sl_debug_free ptr file line s =
    if ptr =? NULL then Some (tt, s)
    else match st_heap s !! ptr with
         | Some _ =>
             Some (tt, State (delete ptr (st_heap s))
                         (Ledger (allocated_bytes (st_ledger s))
                                 (wrap (allocation_count (st_ledger s) - 1)))
                         (st_err s ++ [DiagFree ptr file line]))
         | None => None
         end.
Proof.
  munfold. destruct (ptr =? NULL) eqn:E; [done|]. simpl.
  by destruct (st_heap s !! ptr).
Qed.

(** A counter that is bumped or dropped by one never keeps its value. *)
Lemma wrap_succ_ne (c : Z) : wrap (c + 1) ≠ c.
Proof.
  pose proof size_limits as [Hmax Hpd]. unfold wrap.
  assert (2 ^ size_bits = SIZE_MAX + 1) as -> by (unfold SIZE_MAX; lia).
  intros H.
  assert (0 ≤ c < SIZE_MAX + 1) as Hc by (rewrite <- H; apply Z.mod_pos_bound; lia).
  destruct (decide (c = SIZE_MAX)) as [->|Hne].
  - rewrite Z_mod_same_full in H. lia.
  - rewrite Z.mod_small in H by lia. lia.
Qed.

Lemma wrap_pred_ne (c : Z) : wrap (c - 1) ≠ c.
Proof.
  pose proof size_limits as [Hmax Hpd]. unfold wrap.
  assert (2 ^ size_bits = SIZE_MAX + 1) as -> by (unfold SIZE_MAX; lia).
  intros H.
  assert (0 ≤ c < SIZE_MAX + 1) as Hc by (rewrite <- H; apply Z.mod_pos_bound; lia).
  destruct (decide (c = 0)) as [->|Hne].
  - replace (0 - 1) with (SIZE_MAX + -1 * (SIZE_MAX + 1)) in H by lia.
    rewrite Z.mod_add, Z.mod_small in H by lia. lia.
  - rewrite Z.mod_small in H by lia. lia.
Qed.

(** ** Calls that leave the ledger alone *)

(** Case analysis on every branch of a computation that returned. *)
Ltac run_cases :=
  repeat first
    [ done
    | progress munfold
    | progress simplify_eq
    | match goal with
      | H : context [if ?b then _ else _] |- _ => destruct b eqn:?
      | H : context [match ?o with Some _ => _ | None => _ end] |- _ =>
          destruct o eqn:?
      | H : context [let (_, _) := ?x in _] |- _ => destruct x eqn:?
      end ].

(** The untracked operations of the runtime never touch the ledger. *)
Lemma untracked_keep_ledger :
  (∀ n, keeps_ledger (sl_malloc n)) ∧
  (∀ p, keeps_ledger (sl_free p)) ∧
  (∀ p, keeps_ledger (sl_alloc_string p)) ∧
  (∀ p q, keeps_ledger (sl_concat_string p q)) ∧
  (∀ p q, keeps_ledger (sl_compare_string p q)) ∧
  (∀ n m, keeps_ledger (sl_alloc_array n m)).
Proof.
  repeat split; intros; intros s a s' H; run_cases.
Qed.

(** C8 (amended): the ledger is zero in the initial state.  A tracked
    allocation that the host grants adds the size to the cumulative
    bytes and one to the live count, a tracked release of a non-null
    block takes one from the live count, and both leave a ledger
    different from the one they found; a refused allocation and the
    release of NULL leave the whole state as it was.  The report
    appends one line to the error stream and changes nothing else, and
    no other operation of the runtime changes the ledger: nothing ever
    sets it back. *)
Theorem ledger_lifecycle :
  st_ledger initial_state = Ledger 0 0 ∧
  (∀ size file line s,
     ∃ p s', sl_debug_malloc size file line s = Some (p, s') ∧
       (p = NULL → s' = s) ∧
       (p ≠ NULL →
          st_ledger s' = Ledger (wrap (allocated_bytes (st_ledger s) + size))
                                (wrap (allocation_count (st_ledger s) + 1)) ∧
          st_ledger s' ≠ st_ledger s)) ∧
  (∀ ptr file line s s',
     sl_debug_free ptr file line s = Some (tt, s') →
     (ptr = NULL → s' = s) ∧
     (ptr ≠ NULL →
        st_ledger s' = Ledger (allocated_bytes (st_ledger s))
                              (wrap (allocation_count (st_ledger s) - 1)) ∧
        st_ledger s' ≠ st_ledger s)) ∧
  (∀ s, sl_print_memory_stats s
        = Some (tt, State (st_heap s) (st_ledger s)
                      (st_err s ++ [DiagStats (allocated_bytes (st_ledger s))
                                              (allocation_count (st_ledger s))]))) ∧
  (∀ n, keeps_ledger (sl_malloc n)) ∧
  (∀ p, keeps_ledger (sl_free p)) ∧
  (∀ p, keeps_ledger (sl_alloc_string p)) ∧
  (∀ p q, keeps_ledger (sl_concat_string p q)) ∧
  (∀ p q, keeps_ledger (sl_compare_string p q)) ∧
  (∀ n m, keeps_ledger (sl_alloc_array n m)).
Proof.
  split; [done|]. split; [|split; [|split; [done|apply untracked_keep_ledger]]].
  - intros size file line s. rewrite sl_debug_malloc_run. cbn zeta.
    destruct (host_pick (st_heap s) size =? NULL) eqn:E.
    + exists NULL, s. by repeat split.
    + apply Z.eqb_neq in E. eexists _, _. split; [done|].
      split; [done|]. intros _. cbn [st_ledger]. split; [done|].
      destruct (st_ledger s) as [by0 c]. cbn. intros [= _ Hc].
      by apply wrap_succ_ne in Hc.
  - intros ptr file line s s'. rewrite sl_debug_free_run.
    destruct (ptr =? NULL) eqn:E.
    + intros [= <-]. apply Z.eqb_eq in E. by split.
    + apply Z.eqb_neq in E. destruct (st_heap s !! ptr); [|done].
      intros [= <-]. split; [done|]. intros _. cbn [st_ledger].
      split; [done|]. destruct (st_ledger s) as [by0 c]. cbn. intros [= Hc].
      by apply wrap_pred_ne in Hc.
Qed.

(** ** The ledger: sequences of calls *)

(** The live blocks of a well-formed heap sit at distinct non-null
    addresses, so there are [SIZE_MAX] of them at most. *)
Lemma heap_wf_size (h : gmap Z block) (L : gset Z) :
  heap_wf h → L ⊆ dom h → Z.of_nat (size L) ≤ SIZE_MAX.
Proof.
  intros Hwf HL. pose proof size_limits as [Hmax Hpd].
  assert (L ⊆ list_to_set (seqZ 1 SIZE_MAX)) as Hsub.
  { intros a Ha. apply HL, elem_of_dom in Ha as [b Hb].
    destruct (Hwf a b Hb) as [Hrange _].
    apply elem_of_list_to_set, elem_of_seqZ. lia. }
  apply subseteq_size in Hsub.
  rewrite size_list_to_set in Hsub by apply NoDup_seqZ.
  rewrite length_seqZ in Hsub. lia.
Qed.



Lemma tracked_alloc live total s n file line p s' :
  tracked live total s →
  sl_debug_malloc n file line s = Some (p, s') → p ≠ NULL →
  tracked (live ∪ {[p]}) (total + n) s' ∧
  size (live ∪ {[p]}) = S (size live) ∧ 0 ≤ n.
Proof.
  intros [Hwf Hlive Hcount Hbytes]. rewrite sl_debug_malloc_run. cbn zeta.
  destruct (host_pick (st_heap s) n =? NULL) eqn:E.
  { intros [= <- _]. done. }
  intros [= <- <-] _. apply Z.eqb_neq in E.
  set (p := host_pick (st_heap s) n) in *.
  destruct (host_pick_ok _ n Hwf E) as (Hfresh & Hp & Hsize).
  fold p in Hfresh, Hp.
  assert (p ∉ live) as Hnew.
  { intros Hin. apply Hlive, elem_of_dom in Hin as [b Hb]. congruence. }
  assert (size (live ∪ {[p]}) = S (size live)) as Hsz.
  { assert (live ## {[p]}) as Hdisj by (by apply disjoint_singleton_r).
    rewrite (size_union _ _ Hdisj), size_singleton. lia. }
  assert (heap_wf (<[p := Block n []]> (st_heap s))) as Hwf'.
  { apply heap_wf_insert; [done|done|]. unfold block_ok. simpl. lia. }
  assert (live ∪ {[p]} ⊆ dom (<[p := Block n []]> (st_heap s))) as Hlive'.
  { rewrite dom_insert_L. apply union_least.
    - etrans; [exact Hlive|apply union_subseteq_r].
    - apply union_subseteq_l. }
  pose proof (heap_wf_size _ _ Hwf' Hlive') as Hbound.
  split; [|split; [done|lia]]. split; cbn [st_heap st_ledger
    allocated_bytes allocation_count]; try done.
  - rewrite Hcount, wrap_small by lia. lia.
  - rewrite Hbytes. unfold wrap. by rewrite Zplus_mod_idemp_l.
Qed.

(** The release of a tracked block never faults. *)
Lemma tracked_free live total s ptr file line :
  tracked live total s → ptr ∈ live →
  ∃ s', sl_debug_free ptr file line s = Some (tt, s') ∧
        tracked (live ∖ {[ptr]}) total s' ∧
        S (size (live ∖ {[ptr]})) = size live.
Proof.
  intros [Hwf Hlive Hcount Hbytes] Hin. rewrite sl_debug_free_run.
  destruct (proj1 (elem_of_dom _ _) (Hlive _ Hin)) as [b Hb].
  destruct (Hwf ptr b Hb) as [Hrange _].
  destruct (Z.eqb_spec ptr NULL) as [->|_]; [unfold NULL in Hrange; lia|].
  rewrite Hb. eexists. split; [done|].
  assert (S (size (live ∖ {[ptr]})) = size live) as Hsz.
  { assert ({[ptr]} ⊆ live) as Hsub by (by apply singleton_subseteq_l).
    rewrite (size_difference _ _ Hsub), size_singleton.
    apply subseteq_size in Hsub. rewrite size_singleton in Hsub. lia. }
  pose proof (heap_wf_size _ _ Hwf Hlive) as Hbound.
  split; [|done]. split; cbn [st_heap st_ledger
    allocated_bytes allocation_count]; try done.
  - by apply heap_wf_delete.
  - rewrite dom_delete_L. intros x [Hx Hnx]%elem_of_difference.
    apply elem_of_difference. auto.
  - rewrite Hcount, wrap_small by lia. lia.
Qed.

(** The bookkeeping along a paired trace. *)
Lemma exec_calls_tracked cs :
  ∀ live total s tr s',
    tracked live total s →
    exec_calls cs s = Some (tr, s') → paired live tr = true →
    allocation_count (st_ledger s')
    = Z.of_nat (size live) + allocations tr - releases tr ∧
    releases tr ≤ Z.of_nat (size live) + allocations tr ∧
    allocated_bytes (st_ledger s') = wrap (total + requested tr) ∧
    granted tr = requested tr ∧ 0 ≤ requested tr.
Proof.
  induction cs as [|c cs IH]; intros live total s tr s' Htr Hrun Hpair.
  - injection Hrun as <- <-. destruct Htr. simpl.
    rewrite !Z.add_0_r. repeat split; done || lia.
  - simpl in Hrun. unfold bind at 1 in Hrun.
    destruct (exec_call c s) as [[e s1]|] eqn:Hcall; [|done].
    unfold bind at 1 in Hrun.
    destruct (exec_calls cs s1) as [[es s2]|] eqn:Hrest; [|done].
    injection Hrun as <- <-.
    destruct c as [n file line|ptr file line|]; simpl in Hcall;
      unfold bind in Hcall.
    + destruct (sl_debug_malloc n file line s) as [[p s1']|] eqn:Hm; [|done].
      injection Hcall as <- <-. simpl in Hpair.
      apply andb_true_iff in Hpair as [Hp Hpair].
      apply negb_true_iff, Z.eqb_neq in Hp.
      destruct (tracked_alloc _ _ _ _ _ _ _ _ Htr Hm Hp) as (Htr' & Hsz & Hsize).
      destruct (IH _ _ _ _ _ Htr' Hrest Hpair) as (Hc & Hle & Hb & Hg & Hr).
      simpl. apply Z.eqb_neq in Hp. rewrite Hp.
      rewrite Hc, Hb, Hg, Hsz. repeat split; try lia. f_equal. lia.
    + destruct (sl_debug_free ptr file line s) as [[[] s1']|] eqn:Hf; [|done].
      injection Hcall as <- <-. simpl in Hpair.
      apply andb_true_iff in Hpair as [Hin Hpair].
      apply bool_decide_eq_true in Hin.
      destruct (tracked_free _ _ _ _ file line Htr Hin) as (s1'' & Hf' & Htr' & Hsz).
      rewrite Hf in Hf'. injection Hf' as <-.
      destruct (IH _ _ _ _ _ Htr' Hrest Hpair) as (Hc & Hle & Hb & Hg & Hr).
      simpl. rewrite Hc, Hb, Hg. repeat split; try lia.
    + injection Hcall as <- <-. simpl in Hpair.
      assert (tracked live total
                (add_err (DiagStats (allocated_bytes (st_ledger s))
                                    (allocation_count (st_ledger s))) s)) as Htr'.
      { by destruct Htr. }
      destruct (IH _ _ _ _ _ Htr' Hrest Hpair) as (Hc & Hle & Hb & Hg & Hr).
      simpl. by rewrite Hc, Hb, Hg.
Qed.






(** C4 (amended): in the debug build, from the zero ledger, after a
    run of N tracked allocations that all succeed and M tracked
    releases of blocks that earlier allocations of the run returned,
    M is at most N, the live-allocation count is N − M, and the
    cumulative bytes are the sum of the sizes asked for reduced modulo
    2^size_bits: the sum itself whenever it fits size_t. *)
Theorem ledger_after_paired_trace (cs : list call) (s : state) tr s' :
  heap_wf (st_heap s) → st_ledger s = zero_ledger →
  exec_calls cs s = Some (tr, s') → paired ∅ tr = true →
  releases tr ≤ allocations tr ∧
  allocation_count (st_ledger s') = allocations tr - releases tr ∧
  allocated_bytes (st_ledger s') = wrap (requested tr) ∧
  (requested tr ≤ SIZE_MAX → allocated_bytes (st_ledger s') = requested tr).
Proof.
  intros Hwf Hzero Hrun Hpair.
  assert (tracked ∅ 0 s) as Htr.
  { split; rewrite ?Hzero; done. }
  destruct (exec_calls_tracked cs _ _ _ _ _ Htr Hrun Hpair)
    as (Hc & Hle & Hb & _ & Hr).
  rewrite size_empty in Hc, Hle. simpl in Hc, Hle, Hb.
  repeat split; try done.
  intros Hfit. rewrite Hb. by apply wrap_small.
Qed.

(** The cumulative bytes along any run of the debug interface. *)
Lemma exec_calls_bytes cs :
  ∀ s tr s' total,
    heap_wf (st_heap s) →
    allocated_bytes (st_ledger s) = wrap total →
    exec_calls cs s = Some (tr, s') →
    heap_wf (st_heap s') ∧ 0 ≤ granted tr ∧
    allocated_bytes (st_ledger s') = wrap (total + granted tr).
Proof.
  induction cs as [|c cs IH]; intros s tr s' total Hwf Hbytes Hrun.
  - injection Hrun as <- <-. simpl. by rewrite Z.add_0_r.
  - simpl in Hrun. unfold bind at 1 in Hrun.
    destruct (exec_call c s) as [[e s1]|] eqn:Hcall; [|done].
    unfold bind at 1 in Hrun.
    destruct (exec_calls cs s1) as [[es s2]|] eqn:Hrest; [|done].
    injection Hrun as <- <-.
    pose proof (λ t H1 H2, IH s1 es s2 t H1 H2 Hrest) as IH'. clear IH.
    destruct c as [n file line|ptr file line|]; simpl in Hcall;
      unfold bind in Hcall.
    + rewrite sl_debug_malloc_run in Hcall. cbn zeta in Hcall.
      destruct (host_pick (st_heap s) n =? NULL) eqn:E.
      * injection Hcall as <- <-.
        destruct (IH' total Hwf Hbytes) as (Hwf' & Hg & Hb). by simpl.
      * injection Hcall as <- <-. apply Z.eqb_neq in E as E'.
        destruct (host_pick_ok _ n Hwf E') as (Hfresh & Hp & Hn).
        set (p := host_pick (st_heap s) n) in *.
        assert (heap_wf (<[p := Block n []]> (st_heap s))) as Hwf1.
        { apply heap_wf_insert; [done|done|]. unfold block_ok. simpl. lia. }
        assert (wrap (allocated_bytes (st_ledger s) + n) = wrap (total + n))
          as Hbytes1.
        { rewrite Hbytes. unfold wrap. by rewrite Zplus_mod_idemp_l. }
        destruct (IH' (total + n) Hwf1 Hbytes1) as (Hwf' & Hg & Hb).
        simpl. rewrite E. split; [done|]. split; [lia|].
        rewrite Hb. f_equal. lia.
    + rewrite sl_debug_free_run in Hcall.
      destruct (ptr =? NULL).
      * injection Hcall as <- <-.
        by destruct (IH' total Hwf Hbytes) as (Hwf' & Hg & Hb).
      * destruct (st_heap s !! ptr); [|done]. injection Hcall as <- <-.
        pose proof (heap_wf_delete _ ptr Hwf) as Hwf1.
        by destruct (IH' total Hwf1 Hbytes) as (Hwf' & Hg & Hb).
    + injection Hcall as <- <-.
      by destruct (IH' total Hwf Hbytes) as (Hwf' & Hg & Hb).
Qed.

(** C10 (amended): a tracked release never changes the cumulative
    bytes, and takes one from the live count when the block is not
    NULL.  Along any run of the debug interface the cumulative bytes
    are the starting value plus the sizes of the allocations granted,
    reduced modulo 2^size_bits; so they do not decrease as long as
    that sum fits size_t, and the counter is again a size_t value over
    a well-formed heap at the end of the run.  The untracked operations
    of the runtime leave the ledger as it is. *)
Theorem cumulative_bytes_monotone (cs : list call) (s : state) tr s' :
  heap_wf (st_heap s) →
  0 ≤ allocated_bytes (st_ledger s) ≤ SIZE_MAX →
  exec_calls cs s = Some (tr, s') →
  (∀ ptr file line s1 s2,
     sl_debug_free ptr file line s1 = Some (tt, s2) →
     allocated_bytes (st_ledger s2) = allocated_bytes (st_ledger s1) ∧
     (ptr ≠ NULL →
        allocation_count (st_ledger s2)
        = wrap (allocation_count (st_ledger s1) - 1))) ∧
  allocated_bytes (st_ledger s')
  = wrap (allocated_bytes (st_ledger s) + granted tr) ∧
  (allocated_bytes (st_ledger s) + granted tr ≤ SIZE_MAX →
     allocated_bytes (st_ledger s')
     = allocated_bytes (st_ledger s) + granted tr ∧
     allocated_bytes (st_ledger s) ≤ allocated_bytes (st_ledger s')) ∧
  heap_wf (st_heap s') ∧
  0 ≤ allocated_bytes (st_ledger s') ≤ SIZE_MAX ∧
  (∀ n, keeps_ledger (sl_malloc n)) ∧
  (∀ p, keeps_ledger (sl_free p)) ∧
  (∀ p, keeps_ledger (sl_alloc_string p)) ∧
  (∀ p q, keeps_ledger (sl_concat_string p q)) ∧
  (∀ p q, keeps_ledger (sl_compare_string p q)) ∧
  (∀ n m, keeps_ledger (sl_alloc_array n m)).
Proof.
  intros Hwf Hrange Hrun. pose proof size_limits as [Hmax Hpd].
  destruct (exec_calls_bytes cs s tr s' (allocated_bytes (st_ledger s)) Hwf
              ltac:(by rewrite wrap_small) Hrun) as (Hwf' & Hg & Hb).
  split; [|split; [done|split; [|split; [done|split;
    [|apply untracked_keep_ledger]]]]].
  - intros ptr file line s1 s2. rewrite sl_debug_free_run.
    destruct (Z.eqb_spec ptr NULL) as [Hnull|_]; [by intros [= <-]|].
    destruct (st_heap s1 !! ptr); [|done]. by intros [= <-].
  - intros Hfit. rewrite Hb, wrap_small by lia. lia.
  - rewrite Hb. unfold wrap.
    assert (2 ^ size_bits = SIZE_MAX + 1) as -> by (unfold SIZE_MAX; lia).
    pose proof (Z.mod_pos_bound (allocated_bytes (st_ledger s) + granted tr)
                  (SIZE_MAX + 1)). lia.
Qed.




End Properties.

(** * The arena platform, and the properties on concrete inputs *)

Lemma arena_ok (bits : Z) : 16 ≤ bits → PlatformOk (arena bits).
Proof.
  intros Hbits. split; [done|]. intros h n _. simpl. unfold arena_pick.
  case_bool_decide as Hn; [|done].
  destruct (List.find _ _) as [a|] eqn:Hfind; simpl; [|done]. intros _.
  apply find_some in Hfind as [Hin Hfree].
  apply bool_decide_eq_true in Hfree.
  apply list_elem_of_In, elem_of_seqZ in Hin.
  assert (2 ^ 16 ≤ 2 ^ bits) by (apply Z.pow_le_mono_r; lia).
  unfold SIZE_MAX, PTRDIFF_MAX. simpl. repeat split; done || lia.
Qed.

Lemma foo_bar_wf (bits : Z) :
  16 ≤ bits → heap_wf (P := arena bits) (st_heap foo_bar_state).
Proof.
  intros Hbits. pose proof (arena_ok bits Hbits) as HP.
  pose proof (size_limits (P := arena bits)) as [Hmax Hpd].
  simpl. unfold foo_bar_heap.
  repeat apply map_Forall_insert_2; try apply map_Forall_empty;
    unfold block_ok; simpl; lia.
Qed.

Lemma initial_wf (P : Platform) : heap_wf (st_heap initial_state).
Proof. apply map_Forall_empty. Qed.

(** ** Strings *)


Lemma sl_alloc_string_spec_witness :
  heap_wf (P := arena 64) (st_heap foo_bar_state) ∧
  sl_alloc_string (P := arena 64) 2 foo_bar_state
  = Some (3, set_heap
               (<[3 := Block 4 (String.list_ascii_of_string "bar" ++ [NUL])]>
                  foo_bar_heap) foo_bar_state).
Proof.
  pose proof (foo_bar_wf 64 ltac:(lia)) as Hwf. split; [exact Hwf|].
  destruct (sl_alloc_string_spec (HP := arena_ok 64 ltac:(lia))
              2 foo_bar_state Hwf) as [_ Hrun].
  destruct (Hrun (String.list_ascii_of_string "bar") ltac:(done) eq_refl)
    as [[Hnull _]|(p & Hp & _ & _ & Hp_run)].
  - vm_compute in Hnull. discriminate Hnull.
  - vm_compute in Hp. subst p. exact Hp_run.
Defined.

Lemma concat_one_null_copies_witness :
  heap_wf (P := arena 64) (st_heap foo_bar_state) ∧ 1 ≠ NULL ∧
  string_at (st_heap foo_bar_state) 1
  = Some (String.list_ascii_of_string "foo") ∧
  sl_concat_string (P := arena 64) NULL 1 foo_bar_state
  = Some (3, set_heap
               (<[3 := Block 4 (String.list_ascii_of_string "foo" ++ [NUL])]>
                  foo_bar_heap) foo_bar_state) ∧
  sl_concat_string (P := arena 64) 1 NULL foo_bar_state
  = Some (3, set_heap
               (<[3 := Block 4 (String.list_ascii_of_string "foo" ++ [NUL])]>
                  foo_bar_heap) foo_bar_state).
Proof.
  pose proof (foo_bar_wf 64 ltac:(lia)) as Hwf.
  assert (1 ≠ NULL) as Hnz by done.
  destruct (concat_one_null_copies (HP := arena_ok 64 ltac:(lia))
              1 foo_bar_state (String.list_ascii_of_string "foo")
              Hwf Hnz eq_refl)
    as (_ & _ & [(Hnull & _)|(p & s' & Hp & _ & Hs' & Hl & Hr & _)]).
  - vm_compute in Hnull. discriminate Hnull.
  - split; [exact Hwf|]. split; [exact Hnz|]. split; [reflexivity|].
    vm_compute in Hp. subst p s'. split; [exact Hl|exact Hr].
Defined.

Lemma sl_compare_string_spec_witness :
  sl_compare_string 1 2 foo_bar_state = Some (4, foo_bar_state) ∧
  sl_compare_string 1 1 foo_bar_state = Some (0, foo_bar_state).
Proof.
  split.
  - destruct (sl_compare_string_spec 1 2 foo_bar_state) as (_ & _ & Hcmp).
    exact (proj1 (Hcmp (String.list_ascii_of_string "foo")
                       (String.list_ascii_of_string "bar")
                       ltac:(done) ltac:(done) eq_refl eq_refl)).
  - destruct (sl_compare_string_spec 1 1 foo_bar_state) as (_ & _ & Hcmp).
    exact (proj1 (Hcmp (String.list_ascii_of_string "foo")
                       (String.list_ascii_of_string "foo")
                       ltac:(done) ltac:(done) eq_refl eq_refl)).
Defined.

Lemma compare_one_null_is_one_witness :
  2 ≠ NULL ∧
  sl_compare_string NULL 2 foo_bar_state = Some (1, foo_bar_state) ∧
  sl_compare_string 2 NULL foo_bar_state = Some (1, foo_bar_state).
Proof.
  assert (2 ≠ NULL) as Hnz by done.
  split; [exact Hnz|]. exact (compare_one_null_is_one 2 foo_bar_state Hnz).
Defined.

(** ** Arrays *)

Lemma sl_alloc_array_spec_witness :
  heap_wf (P := arena 64) (st_heap foo_bar_state) ∧
  sl_alloc_array (P := arena 64) (2 ^ 33) (2 ^ 33) foo_bar_state
  = Some (NULL, foo_bar_state) ∧
  sl_alloc_array (P := arena 64) 4 3 foo_bar_state
  = Some (3, set_heap (<[3 := Block 12 (replicate 12 NUL)]> foo_bar_heap)
               foo_bar_state).
Proof.
  pose proof (foo_bar_wf 64 ltac:(lia)) as Hwf. split; [exact Hwf|]. split.
  - destruct (sl_alloc_array_spec (HP := arena_ok 64 ltac:(lia))
                (2 ^ 33) (2 ^ 33) foo_bar_state Hwf) as [Hov _].
    apply Hov. vm_compute. reflexivity.
  - destruct (sl_alloc_array_spec (HP := arena_ok 64 ltac:(lia))
                4 3 foo_bar_state Hwf) as [_ [Hnull|(p & _ & _ & _ & Hrun)]].
    + vm_compute in Hnull. discriminate Hnull.
    + rewrite Hrun. vm_compute in Hrun. injection Hrun as Hp _.
      rewrite <- Hp. reflexivity.
Defined.

(** ** The ledger *)

Lemma ledger_lifecycle_witness :
  PlatformOk (arena 64) ∧
  ∃ p s', sl_debug_malloc (P := arena 64) 16 "main.sl" 1 initial_state
          = Some (p, s') ∧
          st_ledger s' = Ledger 16 1 ∧ st_ledger s' ≠ st_ledger initial_state.
Proof.
  pose proof (arena_ok 64 ltac:(lia)) as HP. split; [exact HP|].
  destruct (ledger_lifecycle (HP := HP)) as (_ & Halloc & _).
  destruct (Halloc 16 "main.sl" 1 initial_state) as (p & s' & Hrun & _ & Hmut).
  exists p, s'. split; [exact Hrun|].
  assert (p ≠ NULL) as Hp.
  { vm_compute in Hrun. injection Hrun as <- _. done. }
  destruct (Hmut Hp) as [Hl Hne]. split; [|exact Hne].
  rewrite Hl. reflexivity.
Defined.

Lemma ledger_after_paired_trace_witness :
  PlatformOk (arena 64) ∧
  ∃ tr s', exec_calls (P := arena 64) small_run initial_state = Some (tr, s') ∧
           paired ∅ tr = true ∧
           allocations tr = 2 ∧ releases tr = 1 ∧ requested tr = 48 ∧
           allocation_count (st_ledger s') = 1 ∧
           allocated_bytes (st_ledger s') = 48.
Proof.
  pose proof (arena_ok 64 ltac:(lia)) as HP. split; [exact HP|].
  eassert (exec_calls (P := arena 64) small_run initial_state = Some (_, _))
    as Hrun by (vm_compute; reflexivity).
  match type of Hrun with
  | _ = Some (?tr, ?s') =>
      exists tr, s';
      assert (paired ∅ tr = true) as Hpair by (vm_compute; reflexivity);
      destruct (ledger_after_paired_trace (HP := HP) small_run initial_state
                  tr s' (initial_wf _) eq_refl Hrun Hpair)
        as (_ & Hcount & _ & Hbytes)
  end.
  split; [exact Hrun|]. split; [exact Hpair|].
  split; [reflexivity|]. split; [reflexivity|]. split; [reflexivity|].
  split; [exact Hcount|]. apply Hbytes. vm_compute. discriminate.
Defined.

Lemma cumulative_bytes_monotone_witness :
  PlatformOk (arena 64) ∧
  ∃ tr s', exec_calls (P := arena 64) small_run initial_state = Some (tr, s') ∧
           granted tr = 48 ∧
           allocated_bytes (st_ledger s') = 48 ∧
           allocated_bytes (st_ledger initial_state)
           ≤ allocated_bytes (st_ledger s').
Proof.
  pose proof (arena_ok 64 ltac:(lia)) as HP. split; [exact HP|].
  eassert (exec_calls (P := arena 64) small_run initial_state = Some (_, _))
    as Hrun by (vm_compute; reflexivity).
  match type of Hrun with
  | _ = Some (?tr, ?s') =>
      exists tr, s';
      destruct (cumulative_bytes_monotone (HP := HP) small_run initial_state
                  tr s' (initial_wf _) ltac:(vm_compute; split; discriminate)
                  Hrun)
        as (_ & _ & Hfit & _)
  end.
  destruct Hfit as [Hsum Hle]; [vm_compute; discriminate|].
  split; [exact Hrun|]. split; [reflexivity|]. split; [exact Hsum|exact Hle].
Defined.

(** Four rounds of one GiB on a platform with a 32-bit [size_t]: the
    bytes asked for add up to 2^32, and the counter is back at 0. *)
Lemma ledger_sum_counterexample :
  PlatformOk (arena 32) ∧
  ∃ tr s', exec_calls (P := arena 32) churn initial_state = Some (tr, s') ∧
           paired ∅ tr = true ∧
           allocations tr = 4 ∧ releases tr = 4 ∧
           requested tr = 4294967296 ∧
           allocated_bytes (st_ledger s') = 0 ∧
           allocated_bytes (st_ledger s') ≠ requested tr.
Proof.
  split; [apply arena_ok; lia|].
  eexists _, _. split; [vm_compute; reflexivity|].
  repeat split; vm_compute; congruence.
Qed.

(** The release of NULL and an allocation that the host refuses are
    tracked calls that leave the ledger as it was. *)
Lemma ledger_mutation_counterexample :
  PlatformOk (arena 32) ∧
  (∃ s', sl_debug_free (P := arena 32) NULL "main.sl" 1 initial_state
         = Some (tt, s') ∧
         st_ledger s' = st_ledger initial_state) ∧
  (∃ p s', sl_debug_malloc (P := arena 32) (2 ^ 31) "main.sl" 2 initial_state
           = Some (p, s') ∧
           st_ledger s' = st_ledger initial_state).
Proof.
  split; [apply arena_ok; lia|]. split.
  - by exists initial_state.
  - by exists NULL, initial_state.
Qed.

(** After three rounds of one GiB on a platform with a 32-bit [size_t]
    the counter holds 3 GiB; the fourth allocation, which the host
    grants, brings it down to 0. *)
Lemma cumulative_bytes_counterexample :
  PlatformOk (arena 32) ∧
  ∃ tr s1 p s2,
    exec_calls (P := arena 32) (take 6 churn) initial_state = Some (tr, s1) ∧
    sl_debug_malloc (P := arena 32) GiB "main.sl" 7 s1 = Some (p, s2) ∧
    p ≠ NULL ∧
    allocated_bytes (st_ledger s1) = 3221225472 ∧
    allocated_bytes (st_ledger s2) = 0 ∧
    allocated_bytes (st_ledger s2) < allocated_bytes (st_ledger s1).
Proof.
  split; [apply arena_ok; lia|].
  eexists _, _, _, _. split; [vm_compute; reflexivity|].
  split; [vm_compute; reflexivity|].
  repeat split; vm_compute; congruence.
Qed.

(** * More of the runtime: how the operations compose *)

Section Composition.

Context {P : Platform} {HP : PlatformOk P}.

(** ** String arguments *)

Lemma content_of_nonnul (h : gmap Z block) p cs :
  content_of h p = Some cs → Forall (λ c, Ascii.eqb c NUL = false) cs.
Proof.
  unfold content_of. destruct (p =? NULL).
  - intros [= <-]. constructor.
  - intros H. apply string_at_inv in H as (b & _ & Hs).
    by apply scan_cstr_Some in Hs as [Hall _].
Qed.

Lemma content_of_bound (h : gmap Z block) p cs :
  heap_wf h → content_of h p = Some cs →
  Z.of_nat (length cs) + 1 ≤ PTRDIFF_MAX.
Proof.
  intros Hwf. unfold content_of. destruct (p =? NULL).
  - intros [= <-]. pose proof size_limits. simpl. lia.
  - by apply string_length_bound.
Qed.

(** A new block does not change what the other arguments stand for. *)
Lemma content_of_insert (h : gmap Z block) p b q cs :
  h !! p = None → content_of h q = Some cs →
  content_of (<[p := b]> h) q = Some cs.
Proof.
  unfold content_of. intros Hp. destruct (q =? NULL); [done|].
  intros Hq. rewrite string_at_insert_ne; [done|].
  intros ->. apply string_at_inv in Hq as (? & ? & _). congruence.
Qed.

(** A block that holds [cs] and the terminator reads back as [cs]. *)
Lemma string_at_written (h : gmap Z block) p n cs :
  Forall (λ c, Ascii.eqb c NUL = false) cs →
  string_at (<[p := Block n (cs ++ [NUL])]> h) p = Some cs.
Proof.
  intros Hcs. rewrite string_at_insert_eq. by apply scan_cstr_app.
Qed.

(** A call that returned had arguments it could read. *)
Lemma sl_alloc_string_reads str s r :
  sl_alloc_string str s = Some r → str ≠ NULL →
  ∃ cs, string_at (st_heap s) str = Some cs.
Proof.
  intros Hrun Hstr. apply Z.eqb_neq in Hstr.
  unfold sl_alloc_string in Hrun. rewrite Hstr in Hrun.
  unfold strlen, lift in Hrun. unfold bind at 1 2 in Hrun.
  destruct (string_at (st_heap s) str) as [cs|]; [by exists cs|done].
Qed.

Lemma sl_concat_string_reads a b s r :
  sl_concat_string a b s = Some r →
  ∃ ca cb, content_of (st_heap s) a = Some ca ∧
           content_of (st_heap s) b = Some cb.
Proof.
  intros Hrun. unfold content_of.
  destruct (Z.eqb_spec a NULL) as [->|Ha];
    destruct (Z.eqb_spec b NULL) as [->|Hb].
  - by exists [], [].
  - destruct (sl_alloc_string_reads b s r) as [cb Hcb]; [|done|by exists [], cb].
    revert Hrun. unfold sl_concat_string. apply Z.eqb_neq in Hb. by rewrite Hb.
  - destruct (sl_alloc_string_reads a s r) as [ca Hca]; [|done|by exists ca, []].
    revert Hrun. unfold sl_concat_string. apply Z.eqb_neq in Ha. by rewrite Ha.
  - apply Z.eqb_neq in Ha, Hb. unfold sl_concat_string in Hrun.
    rewrite Ha, Hb in Hrun. cbn [andb] in Hrun.
    unfold strlen, lift in Hrun. unfold bind at 1 2 in Hrun.
    destruct (string_at (st_heap s) a) as [ca|]; [|done].
    unfold ret at 1 in Hrun. unfold bind at 1 2 in Hrun.
    destruct (string_at (st_heap s) b) as [cb|]; [|done].
    by exists ca, cb.
Qed.

(** What [sl_concat_string] computes when an argument is not NULL: NULL
    stands for the empty string. *)
Lemma sl_concat_string_content (a b : Z) (s : state) ca cb :
  heap_wf (st_heap s) → a ≠ NULL ∨ b ≠ NULL →
  content_of (st_heap s) a = Some ca →
  content_of (st_heap s) b = Some cb →
  sl_concat_string a b s =
    Some (let n := Z.of_nat (length ca) + Z.of_nat (length cb) + 1 in
          let p := host_pick (st_heap s) n in
          if p =? NULL then (NULL, s)
          else (p, set_heap
                     (<[p := Block n (ca ++ cb ++ [NUL])]> (st_heap s)) s)).
Proof.
  intros Hwf Hsome. unfold content_of.
  destruct (Z.eqb_spec a NULL) as [->|Ha];
    destruct (Z.eqb_spec b NULL) as [->|Hb].
  - by destruct Hsome.
  - intros [= <-] Hcb.
    replace (sl_concat_string NULL b s) with (sl_alloc_string b s).
    + by rewrite (sl_alloc_string_run b s cb).
    + unfold sl_concat_string. apply Z.eqb_neq in Hb. by rewrite Hb.
  - intros Hca [= <-].
    replace (sl_concat_string a NULL s) with (sl_alloc_string a s).
    + rewrite (sl_alloc_string_run a s ca) by done. simpl.
      by rewrite Z.add_0_r.
    + unfold sl_concat_string. apply Z.eqb_neq in Ha. by rewrite Ha.
  - intros Hca Hcb. by apply sl_concat_string_run.
Qed.



(** ** Allocation and release *)

(** The shape of every allocation of the runtime: what the host grants
    becomes one block, and nothing else changes. *)
Lemma host_block (s : state) n init p s' :
  heap_wf (st_heap s) → Z.of_nat (length init) ≤ n →
  (let p0 := host_pick (st_heap s) n in
   if p0 =? NULL then (NULL, s)
   else (p0, set_heap (<[p0 := Block n init]> (st_heap s)) s)) = (p, s') →
  (p = NULL ∧ s' = s) ∨
  (0 < p ≤ SIZE_MAX ∧ st_heap s !! p = None ∧
   ∃ b, block_ok b ∧ s' = set_heap (<[p := b]> (st_heap s)) s).
Proof.
  intros Hwf Hlen. cbn zeta.
  destruct (Z.eqb_spec (host_pick (st_heap s) n) NULL) as [_|Hp].
  - intros [= <- <-]. by left.
  - intros [= <- <-]. right.
    destruct (host_pick_ok _ n Hwf Hp) as (Hfresh & Hrange & Hn).
    split; [done|]. split; [done|]. eexists. split; [|done].
    unfold block_ok. simpl. lia.
Qed.

Lemma allocates_sl_alloc_string str : allocates (sl_alloc_string str).
Proof.
  intros s p s' Hwf Hrun.
  destruct (Z.eqb_spec str NULL) as [->|Hstr].
  - injection Hrun as <- <-. by left.
  - destruct (sl_alloc_string_reads _ _ _ Hrun Hstr) as [cs Hcs].
    rewrite (sl_alloc_string_run str s cs Hwf Hstr Hcs) in Hrun.
    injection Hrun as Hrun. apply (host_block s _ _ p s' Hwf) in Hrun; [done|].
    rewrite length_app. simpl. lia.
Qed.

Lemma allocates_sl_concat_string a b : allocates (sl_concat_string a b).
Proof.
  intros s p s' Hwf Hrun.
  destruct (sl_concat_string_reads _ _ _ _ Hrun) as (ca & cb & Hca & Hcb).
  destruct (decide (a = NULL ∧ b = NULL)) as [[-> ->]|Hsome].
  - injection Hrun as <- <-. by left.
  - rewrite (sl_concat_string_content a b s ca cb Hwf) in Hrun;
      [|destruct (decide (a = NULL)); [right|left]; naive_solver|done|done].
    injection Hrun as Hrun. apply (host_block s _ _ p s' Hwf) in Hrun; [done|].
    rewrite !length_app. simpl. lia.
Qed.

Lemma allocates_sl_malloc n : allocates (sl_malloc n).
Proof.
  intros s p s' Hwf. unfold sl_malloc.
  destruct (malloc_spec n s Hwf)
    as [[_ Hm]|(p0 & _ & _ & Hfresh & Hrange & Hn & Hm)]; rewrite Hm.
  - intros [= <- <-]. by left.
  - intros [= <- <-]. right. split; [done|]. split; [done|].
    eexists. split; [|done]. unfold block_ok. simpl. lia.
Qed.

Lemma allocates_sl_alloc_array element_size count :
  allocates (sl_alloc_array element_size count).
Proof.
  intros s p s' Hwf. unfold sl_alloc_array, calloc.
  destruct (SIZE_MAX <? count * element_size).
  { intros [= <- <-]. by left. }
  munfold. set (n := count * element_size).
  destruct (Z.eqb_spec (host_pick (st_heap s) n) NULL) as [_|Hp].
  - intros [= <- <-]. by left.
  - intros [= <- <-]. right.
    destruct (host_pick_ok _ n Hwf Hp) as (Hfresh & Hrange & Hn).
    split; [done|]. split; [done|]. eexists. split; [|done].
    unfold block_ok. simpl. rewrite length_replicate. lia.
Qed.

(** X1: each allocating operation of the runtime (allocate, make_string,
    concat, allocate_array) returns NULL and leaves the state as it was,
    or returns the address of one block that was not live before and
    changes nothing else: no live block is moved, resized or rewritten,
    and the ledger and the error stream stay as they were. *)
Theorem allocators_allocate :
  (∀ n, allocates (sl_malloc n)) ∧
  (∀ str, allocates (sl_alloc_string str)) ∧
  (∀ a b, allocates (sl_concat_string a b)) ∧
  (∀ element_size count, allocates (sl_alloc_array element_size count)).
Proof.
  split; [exact allocates_sl_malloc|].
  split; [exact allocates_sl_alloc_string|].
  split; [exact allocates_sl_concat_string|exact allocates_sl_alloc_array].
Qed.

(** Releasing at once what an allocating operation returned. *)
Lemma allocates_release (m : M Z) s p s' :
  allocates m → heap_wf (st_heap s) → m s = Some (p, s') →
  sl_free p s' = Some (tt, s).
Proof.
  intros Hm Hwf Hrun.
  destruct (Hm s p s' Hwf Hrun) as [[-> ->]|(Hp & Hfresh & b & _ & ->)].
  - done.
  - assert ((p =? NULL) = false) as Hp' by (apply Z.eqb_neq; unfold NULL; lia).
    munfold. rewrite Hp'. simpl.
    destruct s as [h l e]. unfold set_heap. simpl in *.
    rewrite lookup_insert_eq. by rewrite delete_insert_id.
Qed.

(** X2: releasing the result of an allocating operation right away
    gives back the state from before the allocation, heap included, and
    never faults: also when the result is NULL, for which release does
    nothing. *)
Theorem release_undoes_allocation (s : state) (p : Z) (s' : state) :
  heap_wf (st_heap s) →
  (∀ n, sl_malloc n s = Some (p, s') → sl_free p s' = Some (tt, s)) ∧
  (∀ str, sl_alloc_string str s = Some (p, s') →
          sl_free p s' = Some (tt, s)) ∧
  (∀ a b, sl_concat_string a b s = Some (p, s') →
          sl_free p s' = Some (tt, s)) ∧
  (∀ element_size count,
     sl_alloc_array element_size count s = Some (p, s') →
     sl_free p s' = Some (tt, s)).
Proof.
  intros Hwf. repeat split; intros.
  - by eapply allocates_release; [apply allocates_sl_malloc|..].
  - by eapply allocates_release; [apply allocates_sl_alloc_string|..].
  - by eapply allocates_release; [apply allocates_sl_concat_string|..].
  - by eapply allocates_release; [apply allocates_sl_alloc_array|..].
Qed.




(** ** Well-formedness is kept *)

Lemma allocates_keeps_wf (m : M Z) : allocates m → keeps_wf m.
Proof.
  intros Hm s p s' Hwf Hrun.
  destruct (Hm s p s' Hwf Hrun) as [[_ ->]|(Hp & _ & b & Hb & ->)]; [done|].
  by apply heap_wf_insert.
Qed.

(** ** Reading back what was written *)

(** X4: with an argument that is not NULL, concat treats NULL as the
    empty string: it asks the host for exactly length(a)+length(b)+1
    bytes.  It returns NULL, with the state as it was, only when the
    host refuses; otherwise it returns the block that the host granted,
    which was not live before and reads back as the bytes of a followed
    by the bytes of b, so that its length is the sum of the two
    lengths, while every other string of the heap reads as before. *)
Theorem concat_reads_back (a b : Z) (s : state) ca cb :
  heap_wf (st_heap s) → a ≠ NULL ∨ b ≠ NULL →
  content_of (st_heap s) a = Some ca →
  content_of (st_heap s) b = Some cb →
  let n := Z.of_nat (length ca) + Z.of_nat (length cb) + 1 in
  (host_pick (st_heap s) n = NULL ∧
   sl_concat_string a b s = Some (NULL, s)) ∨
  (∃ p s', host_pick (st_heap s) n = p ∧ p ≠ NULL ∧
     s' = set_heap (<[p := Block n (ca ++ cb ++ [NUL])]> (st_heap s)) s ∧
     sl_concat_string a b s = Some (p, s') ∧
     st_heap s !! p = None ∧
     string_at (st_heap s') p = Some (ca ++ cb) ∧
     strlen p s' = Some (Z.of_nat (length ca) + Z.of_nat (length cb), s') ∧
     (∀ q cq, content_of (st_heap s) q = Some cq →
              content_of (st_heap s') q = Some cq)).
Proof.
  intros Hwf Hsome Hca Hcb n.
  rewrite (sl_concat_string_content a b s ca cb Hwf Hsome Hca Hcb). cbn zeta.
  fold n.
  destruct (Z.eqb_spec (host_pick (st_heap s) n) NULL) as [Hnull|Hp].
  { by left. }
  right. destruct (host_pick_ok _ n Hwf Hp) as (Hfresh & _ & _).
  eexists _, _. split; [done|]. split; [done|]. split; [done|].
  split; [done|].
  assert (Forall (λ c, Ascii.eqb c NUL = false) (ca ++ cb)) as Hnn.
  { apply Forall_app. split; by eapply content_of_nonnul. }
  destruct s as [h l e]. unfold set_heap. cbn [st_heap st_ledger st_err] in *.
  assert (string_at (<[host_pick h n := Block n (ca ++ cb ++ [NUL])]> h)
            (host_pick h n) = Some (ca ++ cb)) as Hread.
  { rewrite (app_assoc ca cb). by apply string_at_written. }
  split; [done|]. split; [done|]. split.
  - unfold strlen, bind, lift, ret. cbn [st_heap]. rewrite Hread.
    by rewrite length_app, Nat2Z.inj_add.
  - intros q cq Hq. by apply content_of_insert.
Qed.

(** What a granted concat leaves behind. *)
Lemma concat_granted (a b : Z) (s : state) ca cb p s' :
  heap_wf (st_heap s) →
  content_of (st_heap s) a = Some ca →
  content_of (st_heap s) b = Some cb →
  sl_concat_string a b s = Some (p, s') → p ≠ NULL →
  heap_wf (st_heap s') ∧ st_heap s !! p = None ∧
  content_of (st_heap s') p = Some (ca ++ cb) ∧
  (∀ q cq, content_of (st_heap s) q = Some cq →
           content_of (st_heap s') q = Some cq).
Proof.
  intros Hwf Hca Hcb Hrun Hp.
  pose proof (allocates_keeps_wf _ (allocates_sl_concat_string a b)
                s p s' Hwf Hrun) as Hwf'.
  assert (a ≠ NULL ∨ b ≠ NULL) as Hsome.
  { destruct (decide (a = NULL)) as [->|]; [|by left].
    destruct (decide (b = NULL)) as [->|]; [|by right].
    by injection Hrun as <- _. }
  rewrite (sl_concat_string_content a b s ca cb Hwf Hsome Hca Hcb) in Hrun.
  cbn zeta in Hrun.
  set (n := Z.of_nat (length ca) + Z.of_nat (length cb) + 1) in *.
  destruct (Z.eqb_spec (host_pick (st_heap s) n) NULL) as [_|Hp'].
  { by injection Hrun as <- _. }
  injection Hrun as <- <-.
  destruct (host_pick_ok _ n Hwf Hp') as (Hfresh & _ & _).
  split; [done|]. split; [done|].
  destruct s as [h l e]. unfold set_heap. cbn [st_heap] in *. split.
  - unfold content_of. apply Z.eqb_neq in Hp'. rewrite Hp'.
    rewrite (app_assoc ca cb). apply string_at_written, Forall_app.
    split; by eapply content_of_nonnul.
  - intros q cq Hq. by apply content_of_insert.
Qed.

(** What a concat that the host did not refuse leaves behind: the
    result stands for the bytes of a followed by the bytes of b, also
    when both arguments are NULL and the result is NULL. *)
Lemma concat_done (a b : Z) (s : state) ca cb p s' :
  heap_wf (st_heap s) →
  content_of (st_heap s) a = Some ca →
  content_of (st_heap s) b = Some cb →
  sl_concat_string a b s = Some (p, s') →
  p ≠ NULL ∨ (a = NULL ∧ b = NULL) →
  heap_wf (st_heap s') ∧
  content_of (st_heap s') p = Some (ca ++ cb) ∧
  (∀ q cq, content_of (st_heap s) q = Some cq →
           content_of (st_heap s') q = Some cq).
Proof.
  intros Hwf Hca Hcb Hrun Hdone.
  destruct (decide (p = NULL)) as [->|Hp].
  - destruct Hdone as [|[-> ->]]; [done|].
    injection Hrun as <-. injection Hca as <-. injection Hcb as <-. done.
  - by destruct (concat_granted a b s ca cb p s' Hwf Hca Hcb Hrun Hp)
      as (? & _ & ? & ?).
Qed.

(** X5: concat is associative on contents, whichever of the three
    arguments are NULL: when no allocation is refused (every result is
    a block, or NULL for two NULL arguments), concat(concat(a, b), c)
    and concat(a, concat(b, c)) stand for the same bytes, those of a,
    b and c in this order; a result that is a block reads back as this
    string. *)
Theorem concat_associative (a b c : Z) (s : state) ca cb cc
    (ab : Z) (s1 : state) (ab_c : Z) (s2 : state)
    (bc : Z) (s3 : state) (a_bc : Z) (s4 : state) :
  heap_wf (st_heap s) →
  content_of (st_heap s) a = Some ca →
  content_of (st_heap s) b = Some cb →
  content_of (st_heap s) c = Some cc →
  sl_concat_string a b s = Some (ab, s1) →
  ab ≠ NULL ∨ (a = NULL ∧ b = NULL) →
  sl_concat_string ab c s1 = Some (ab_c, s2) →
  ab_c ≠ NULL ∨ (ab = NULL ∧ c = NULL) →
  sl_concat_string b c s = Some (bc, s3) →
  bc ≠ NULL ∨ (b = NULL ∧ c = NULL) →
  sl_concat_string a bc s3 = Some (a_bc, s4) →
  a_bc ≠ NULL ∨ (a = NULL ∧ bc = NULL) →
  content_of (st_heap s2) ab_c = Some (ca ++ cb ++ cc) ∧
  content_of (st_heap s4) a_bc = Some (ca ++ cb ++ cc) ∧
  (ab_c ≠ NULL → string_at (st_heap s2) ab_c = Some (ca ++ cb ++ cc)) ∧
  (a_bc ≠ NULL → string_at (st_heap s4) a_bc = Some (ca ++ cb ++ cc)) ∧
  (ab_c = NULL ↔ a = NULL ∧ b = NULL ∧ c = NULL) ∧
  (a_bc = NULL ↔ a = NULL ∧ b = NULL ∧ c = NULL).
Proof.
  intros Hwf Hca Hcb Hcc Hab Hab' Habc Habc' Hbc Hbc' Ha_bc Ha_bc'.
  destruct (concat_done a b s ca cb ab s1 Hwf Hca Hcb Hab Hab')
    as (Hwf1 & Hab_c & Hframe1).
  destruct (concat_done ab c s1 (ca ++ cb) cc ab_c s2 Hwf1 Hab_c
              (Hframe1 _ _ Hcc) Habc Habc') as (_ & Hl & _).
  destruct (concat_done b c s cb cc bc s3 Hwf Hcb Hcc Hbc Hbc')
    as (Hwf3 & Hbc_c & Hframe3).
  destruct (concat_done a bc s3 ca (cb ++ cc) a_bc s4 Hwf3
              (Hframe3 _ _ Hca) Hbc_c Ha_bc Ha_bc') as (_ & Hr & _).
  rewrite <- app_assoc in Hl.
  split; [exact Hl|]. split; [exact Hr|]. split; [|split; [|split]].
  - intros Hp. unfold content_of in Hl. apply Z.eqb_neq in Hp.
    by rewrite Hp in Hl.
  - intros Hp. unfold content_of in Hr. apply Z.eqb_neq in Hp.
    by rewrite Hp in Hr.
  - split.
    + intros ->. destruct Habc' as [|[-> ->]]; [done|].
      destruct Hab' as [|[-> ->]]; done.
    + intros (-> & -> & ->). injection Hab as <- <-. by injection Habc as <- _.
  - split.
    + intros ->. destruct Ha_bc' as [|[-> ->]]; [done|].
      destruct Hbc' as [|[-> ->]]; done.
    + intros (-> & -> & ->). injection Hbc as <- <-. by injection Ha_bc as <- _.
Qed.

(** ** Comparing *)

Lemma strcmp_bytes_refl a : strcmp_bytes a a = 0.
Proof. induction a as [|c a IH]; simpl; [done|]. by rewrite Ascii.eqb_refl. Qed.

Lemma strcmp_bytes_swap a b : strcmp_bytes b a = - strcmp_bytes a b.
Proof.
  revert b. induction a as [|c a IH]; intros [|d b]; simpl; try lia.
  rewrite (Ascii.eqb_sym d c). destruct (Ascii.eqb c d); [apply IH|lia].
Qed.

Lemma sl_compare_string_strings (a b : Z) (s : state) ca cb :
  a ≠ NULL → b ≠ NULL →
  string_at (st_heap s) a = Some ca → string_at (st_heap s) b = Some cb →
  sl_compare_string a b s = Some (strcmp_bytes ca cb, s).
Proof.
  intros Ha Hb Hca Hcb. apply Z.eqb_neq in Ha, Hb.
  unfold sl_compare_string, strcmp, bind, lift, ret. rewrite Ha, Hb. simpl.
  by rewrite Hca, Hcb.
Qed.

(** X6: a copy made by make_string compares equal to its source, in
    either order, although it sits at another address; and two copies
    of the same source are two blocks that compare equal. *)
Theorem compare_copy_equal (str : Z) (s : state) cs (p : Z) (s1 : state) :
  heap_wf (st_heap s) → str ≠ NULL →
  string_at (st_heap s) str = Some cs →
  sl_alloc_string str s = Some (p, s1) → p ≠ NULL →
  p ≠ str ∧
  sl_compare_string p str s1 = Some (0, s1) ∧
  sl_compare_string str p s1 = Some (0, s1) ∧
  (∀ q s2, sl_alloc_string str s1 = Some (q, s2) → q ≠ NULL →
           q ≠ p ∧ q ≠ str ∧ sl_compare_string p q s2 = Some (0, s2)).
Proof.
  intros Hwf Hstr Hcs Hrun Hp.
  assert (∀ t, sl_concat_string str NULL t = sl_alloc_string str t) as Hcat.
  { intros t. unfold sl_concat_string. apply Z.eqb_neq in Hstr.
    by rewrite Hstr. }
  assert (∀ h, content_of h str = string_at h str) as Hstr_c.
  { intros h. unfold content_of. apply Z.eqb_neq in Hstr. by rewrite Hstr. }
  rewrite <- Hcat in Hrun.
  destruct (concat_granted str NULL s cs [] p s1 Hwf
              ltac:(by rewrite Hstr_c) eq_refl Hrun Hp)
    as (Hwf1 & Hfresh & Hcopy & Hframe).
  rewrite app_nil_r in Hcopy.
  assert (string_at (st_heap s1) p = Some cs) as Hp_s.
  { unfold content_of in Hcopy. apply Z.eqb_neq in Hp. by rewrite Hp in Hcopy. }
  pose proof (Hframe str cs ltac:(by rewrite Hstr_c)) as Hsrc.
  rewrite Hstr_c in Hsrc.
  assert (p ≠ str) as Hne.
  { intros ->. apply string_at_inv in Hcs as (? & ? & _). congruence. }
  split; [done|].
  rewrite (sl_compare_string_strings p str s1 cs cs),
    (sl_compare_string_strings str p s1 cs cs), strcmp_bytes_refl by done.
  split; [done|]. split; [done|].
  intros q s2 Hrun2 Hq. rewrite <- Hcat in Hrun2.
  destruct (concat_granted str NULL s1 cs [] q s2 Hwf1
              ltac:(by rewrite Hstr_c) eq_refl Hrun2 Hq)
    as (_ & Hfresh2 & Hcopy2 & Hframe2).
  rewrite app_nil_r in Hcopy2.
  assert (string_at (st_heap s2) q = Some cs) as Hq_s.
  { unfold content_of in Hcopy2. apply Z.eqb_neq in Hq. by rewrite Hq in Hcopy2. }
  assert (string_at (st_heap s2) p = Some cs) as Hp_s2.
  { specialize (Hframe2 p cs). unfold content_of in Hframe2.
    apply Z.eqb_neq in Hp. rewrite Hp in Hframe2. by apply Hframe2. }
  assert (q ≠ p) as Hqp.
  { intros ->. apply string_at_inv in Hp_s as (? & ? & _). congruence. }
  assert (q ≠ str) as Hqs.
  { intros ->. apply string_at_inv in Hsrc as (? & ? & _). congruence. }
  split; [done|]. split; [done|].
  by rewrite (sl_compare_string_strings p q s2 cs cs), strcmp_bytes_refl.
Qed.

(** X7: compare never changes the state.  Swapping the arguments keeps
    the verdict (zero or not); for two strings it flips the sign of the
    result, while with exactly one NULL both orders give 1.  Every
    argument that is NULL or a string compares equal to itself. *)
Theorem compare_swap (a b : Z) (s : state) (r : Z) (s' : state) :
  sl_compare_string a b s = Some (r, s') →
  s' = s ∧
  (∃ r', sl_compare_string b a s = Some (r', s) ∧
         (r = 0 ↔ r' = 0) ∧
         (a ≠ NULL → b ≠ NULL → r' = - r) ∧
         (a = NULL ∧ b ≠ NULL ∨ a ≠ NULL ∧ b = NULL → r = 1 ∧ r' = 1)) ∧
  (∀ ca, content_of (st_heap s) a = Some ca →
         sl_compare_string a a s = Some (0, s)).
Proof.
  intros Hrun. split; [|split].
  - revert Hrun. unfold sl_compare_string, strcmp, bind, lift, ret.
    destruct ((a =? NULL) && (b =? NULL)); [by intros [= _ <-]|].
    destruct ((a =? NULL) || (b =? NULL)); [by intros [= _ <-]|].
    destruct (string_at (st_heap s) a); [|done].
    destruct (string_at (st_heap s) b); [|done]. by intros [= _ <-].
  - revert Hrun. unfold sl_compare_string, strcmp, bind, lift, ret.
    destruct (Z.eqb_spec a NULL) as [->|Ha];
      destruct (Z.eqb_spec b NULL) as [->|Hb]; simpl.
    + intros [= <- _]. exists 0.
      split; [done|]. split; [done|]. split; [done|]. intros [[]|[]]; done.
    + intros [= <- _]. exists 1.
      split; [done|]. split; [done|]. split; [done|]. done.
    + intros [= <- _]. exists 1.
      split; [done|]. split; [done|]. split; [done|]. done.
    + destruct (string_at (st_heap s) a) as [ca|] eqn:Hca; [|done].
      destruct (string_at (st_heap s) b) as [cb|] eqn:Hcb; [|done].
      intros [= <- _]. exists (strcmp_bytes cb ca).
      split; [by rewrite Hca|]. rewrite (strcmp_bytes_swap ca cb).
      split; [lia|]. split; [done|]. intros [[]|[]]; done.
  - intros ca. unfold content_of, sl_compare_string, strcmp, bind, lift, ret.
    destruct (a =? NULL); simpl; [done|]. intros Hca.
    rewrite Hca. cbn. rewrite Hca. by rewrite strcmp_bytes_refl.
Qed.








(** ** The ledger and the error stream *)

Lemma exec_calls_log cs :
  ∀ s tr s' count,
    allocation_count (st_ledger s) = wrap count →
    exec_calls cs s = Some (tr, s') →
    ∃ lines,
      st_err s' = st_err s ++ lines ∧
      Z.of_nat (length lines) = grants tr + drops tr + reports tr ∧
      st_ledger s' = fold_left replay lines (st_ledger s) ∧
      allocation_count (st_ledger s') = wrap (count + grants tr - drops tr).
Proof.
  induction cs as [|c cs IH]; intros s tr s' count Hcount Hrun.
  - injection Hrun as <- <-. exists []. simpl.
    rewrite app_nil_r, Z.sub_0_r, !Z.add_0_r. done.
  - simpl in Hrun. unfold bind at 1 in Hrun.
    destruct (exec_call c s) as [[e s1]|] eqn:Hcall; [|done].
    unfold bind at 1 in Hrun.
    destruct (exec_calls cs s1) as [[es s2]|] eqn:Hrest; [|done].
    injection Hrun as <- <-.
    pose proof (λ k H, IH s1 es s2 k H Hrest) as IH'. clear IH.
    destruct c as [n file line|ptr file line|]; simpl in Hcall;
      unfold bind in Hcall.
    + rewrite sl_debug_malloc_run in Hcall. cbn zeta in Hcall.
      destruct (host_pick (st_heap s) n =? NULL) eqn:E.
      * injection Hcall as <- <-.
        destruct (IH' count Hcount) as (lines & He & Hn & Hl & Hc).
        exists lines. simpl. by rewrite Z.add_0_l.
      * injection Hcall as <- <-.
        destruct (IH' (count + 1)) as (lines & He & Hn & Hl & Hc).
        { simpl. rewrite Hcount. unfold wrap. by rewrite Zplus_mod_idemp_l. }
        simpl in He, Hl. eexists (_ :: lines). simpl. rewrite E.
        rewrite <- app_assoc in He. split; [exact He|].
        split; [lia|]. split; [exact Hl|]. rewrite Hc. f_equal. lia.
    + rewrite sl_debug_free_run in Hcall.
      destruct (ptr =? NULL) eqn:E.
      * injection Hcall as <- <-.
        destruct (IH' count Hcount) as (lines & He & Hn & Hl & Hc).
        exists lines. simpl. rewrite E. by rewrite Z.add_0_l.
      * destruct (st_heap s !! ptr); [|done]. injection Hcall as <- <-.
        destruct (IH' (count - 1)) as (lines & He & Hn & Hl & Hc).
        { simpl. rewrite Hcount. unfold wrap. by rewrite Zminus_mod_idemp_l. }
        simpl in He, Hl. eexists (_ :: lines). simpl. rewrite E.
        rewrite <- app_assoc in He. split; [exact He|].
        split; [lia|]. split; [exact Hl|]. rewrite Hc. f_equal. lia.
    + injection Hcall as <- <-.
      destruct (IH' count Hcount) as (lines & He & Hn & Hl & Hc).
      simpl in He, Hl. eexists (_ :: lines). simpl.
      rewrite <- app_assoc in He. split; [exact He|].
      split; [lia|]. split; [exact Hl|]. done.
Qed.

(** X8: along any run of the debug interface the error stream only
    grows, by one line for each allocation granted, each release of a
    block other than NULL and each report, and none for a refused
    allocation or a release of NULL.  The ledger at the end is the
    ledger at the start replayed over the new lines, and the live count
    is the count at the start plus the allocations granted minus the
    releases, modulo 2^size_bits, whether or not releases were matched
    with allocations. *)
Theorem log_replays_ledger (cs : list call) (s : state) tr s' :
  0 ≤ allocation_count (st_ledger s) ≤ SIZE_MAX →
  exec_calls cs s = Some (tr, s') →
  ∃ lines,
    st_err s' = st_err s ++ lines ∧
    Z.of_nat (length lines) = grants tr + drops tr + reports tr ∧
    st_ledger s' = fold_left replay lines (st_ledger s) ∧
    allocation_count (st_ledger s')
    = wrap (allocation_count (st_ledger s) + grants tr - drops tr).
Proof.
  intros Hrange Hrun.
  apply (exec_calls_log cs s tr s' (allocation_count (st_ledger s))); [|done].
  by rewrite wrap_small.
Qed.

(** X9: the debug build is transparent for the memory: a tracked
    allocation returns the pointer that the plain allocation returns and
    leaves the same heap, and a tracked release faults exactly when the
    plain release faults and otherwise leaves the same heap. *)
Theorem debug_build_transparent (s : state) :
  (∀ n file line,
     ∃ p s1 s2, sl_malloc n s = Some (p, s1) ∧
                sl_debug_malloc n file line s = Some (p, s2) ∧
                st_heap s2 = st_heap s1) ∧
  (∀ p file line,
     (sl_free p s = None ↔ sl_debug_free p file line s = None) ∧
     (∀ s1 s2, sl_free p s = Some (tt, s1) →
               sl_debug_free p file line s = Some (tt, s2) →
               st_heap s2 = st_heap s1)).
Proof.
  split.
  - intros n file line. rewrite sl_debug_malloc_run. cbn zeta.
    unfold sl_malloc, malloc, bind, gets, modify, ret.
    destruct (host_pick (st_heap s) n =? NULL); by eexists _, _, _.
  - intros p file line. rewrite sl_debug_free_run.
    unfold sl_free, when, free, bind, gets, modify, ret, fault.
    destruct (p =? NULL); simpl.
    + split; [done|]. by intros s1 s2 [= <-] [= <-].
    + destruct (st_heap s !! p); [|done].
      split; [done|]. by intros s1 s2 [= <-] [= <-].
Qed.

(** X10: the strings are not tracked: make_string takes its block from
    the host directly, also in the debug build.  Releasing such a block
    through the tracked release while the live count is 0 succeeds,
    gives back the heap from before the copy, and leaves the live count
    at SIZE_MAX. *)
Theorem untracked_block_underflows (str : Z) (s : state) (p : Z) (s1 : state)
    file line :
  heap_wf (st_heap s) → allocation_count (st_ledger s) = 0 →
  sl_alloc_string str s = Some (p, s1) → p ≠ NULL →
  ∃ s2, sl_debug_free p file line s1 = Some (tt, s2) ∧
        st_ledger s1 = st_ledger s ∧
        allocation_count (st_ledger s2) = SIZE_MAX ∧
        allocated_bytes (st_ledger s2) = allocated_bytes (st_ledger s) ∧
        st_heap s2 = st_heap s.
Proof.
  intros Hwf Hzero Hrun Hp.
  destruct (allocates_sl_alloc_string str s p s1 Hwf Hrun)
    as [[-> _]|(_ & Hfresh & b & _ & ->)]; [done|].
  rewrite sl_debug_free_run. apply Z.eqb_neq in Hp. rewrite Hp.
  destruct s as [h l e]. unfold set_heap. cbn [st_heap st_ledger] in *.
  rewrite lookup_insert_eq. eexists. split; [done|]. cbn.
  split; [done|]. split; [|split; [done|by rewrite delete_insert_id]].
  rewrite Hzero. unfold wrap, SIZE_MAX. pose proof size_limits as [Hmax Hpd].
  unfold SIZE_MAX in Hmax.
  replace (0 - 1) with (2 ^ size_bits - 1 + -1 * 2 ^ size_bits) by lia.
  rewrite Z.mod_add by lia. apply Z.mod_small. lia.
Qed.



(** ** Arrays read as strings *)

(** X11: allocate_array does not depend on the order of its two
    arguments.  A granted array of at least one byte reads as the empty
    string (its first byte is the terminator), so its length is 0; a
    granted array of no bytes holds no terminator, and reading it as a
    string faults. *)
Theorem zeroed_array_as_string (element_size count : Z) (s : state)
    (p : Z) (s' : state) :
  heap_wf (st_heap s) →
  sl_alloc_array element_size count s = Some (p, s') → p ≠ NULL →
  sl_alloc_array count element_size s = Some (p, s') ∧
  0 ≤ element_size * count ∧
  (1 ≤ element_size * count →
     string_at (st_heap s') p = Some [] ∧ strlen p s' = Some (0, s')) ∧
  (element_size * count = 0 →
     string_at (st_heap s') p = None ∧ strlen p s' = None).
Proof.
  intros Hwf Hrun Hp. split.
  { revert Hrun. unfold sl_alloc_array, calloc.
    by rewrite (Z.mul_comm count element_size). }
  revert Hrun. unfold sl_alloc_array, calloc.
  rewrite (Z.mul_comm count element_size). set (n := element_size * count).
  destruct (SIZE_MAX <? n); [by intros [= <- _]|]. munfold.
  destruct (Z.eqb_spec (host_pick (st_heap s) n) NULL) as [_|Hp'].
  { by intros [= <- _]. }
  intros [= <- <-]. destruct (host_pick_ok _ n Hwf Hp') as (_ & _ & Hn).
  split; [lia|]. destruct s as [h l e]. unfold set_heap. cbn [st_heap].
  rewrite string_at_insert_eq. cbn [blk_init]. split.
  - intros Hpos. destruct (Z.to_nat n) as [|k] eqn:Hk; [lia|]. by simpl.
  - intros ->. by simpl.
Qed.

(** ** Printing *)

Lemma digits_no_newline d :
  Forall (λ c, c ≠ newline)
    (String.list_ascii_of_string (DecimalString.NilEmpty.string_of_uint d)).
Proof. induction d; simpl; constructor; done. Qed.

Lemma decimal_no_newline value : Forall (λ c, c ≠ newline) (decimal value).
Proof.
  unfold decimal, DecimalString.NilZero.string_of_int,
    DecimalString.NilZero.string_of_uint.
  destruct (Z.to_int value) as [d|d]; destruct d; simpl;
    repeat constructor; try done; apply digits_no_newline.
Qed.

Lemma decimal_parses value : parse_decimal (decimal value) = Some value.
Proof.
  unfold parse_decimal, decimal.
  rewrite String.string_of_list_ascii_of_string.
  rewrite DecimalString.NilZero.isi.
  - simpl. by rewrite DecimalZ.of_to.
  - destruct value; simpl; [done|..]; intros [= H];
      by apply DecimalPos.Unsigned.to_uint_nonnil in H.
  - destruct value; simpl; [done|..]; intros [= H];
      by apply DecimalPos.Unsigned.to_uint_nonnil in H.
Qed.

(** X12: print_int never faults and never touches the memory; it
    appends to the standard output the decimal text of the value and a
    line terminator.  The text holds no line terminator, so the output
    grows by exactly one line, and it reads back as the value: two
    integers that print the same are equal. *)
Theorem sl_print_int_line (value : Z) (w : world) :
  ∃ w', sl_print_int value w = Some w' ∧
        w_mem w' = w_mem w ∧
        w_out w' = w_out w ++ decimal value ++ [newline] ∧
        Forall (λ c, c ≠ newline) (decimal value) ∧
        parse_decimal (decimal value) = Some value ∧
        (∀ other, decimal other = decimal value → other = value).
Proof.
  eexists. split; [done|]. split; [done|]. split; [done|].
  split; [apply decimal_no_newline|]. split; [apply decimal_parses|].
  intros other Heq. pose proof (decimal_parses other) as Hother.
  rewrite Heq, decimal_parses in Hother. by injection Hother.
Qed.

(** X13: printing the result of concat.  When the result is a block,
    print_string appends the bytes of a, the bytes of b and a line
    terminator to the standard output, and leaves the memory as concat
    left it.  When the result is NULL (both arguments NULL, or the host
    refused) nothing at all is printed, not even an empty line, and the
    world is as it was before the concat. *)
Theorem print_concat (a b : Z) (w : world) ca cb (p : Z) (w1 : world) :
  heap_wf (st_heap (w_mem w)) →
  content_of (st_heap (w_mem w)) a = Some ca →
  content_of (st_heap (w_mem w)) b = Some cb →
  in_world (sl_concat_string a b) w = Some (p, w1) →
  (p ≠ NULL →
     sl_print_string p w1
     = Some (World (w_mem w1) (w_out w ++ ca ++ cb ++ [newline]))) ∧
  (p = NULL → w1 = w ∧ sl_print_string p w1 = Some w).
Proof.
  intros Hwf Hca Hcb. unfold in_world.
  destruct (sl_concat_string a b (w_mem w)) as [[p0 s1]|] eqn:Hrun; [|done].
  intros [= -> <-]. split.
  - intros Hp.
    destruct (concat_granted a b (w_mem w) ca cb p s1 Hwf Hca Hcb Hrun Hp)
      as (_ & _ & Hread & _).
    unfold content_of in Hread. apply Z.eqb_neq in Hp as Hp'.
    rewrite Hp' in Hread.
    unfold sl_print_string, printf_line. cbn [w_mem w_out].
    by rewrite Hp', Hread, <- app_assoc.
  - intros ->.
    destruct (allocates_sl_concat_string a b (w_mem w) NULL s1 Hwf Hrun)
      as [[_ ->]|(Hrange & _)]; [|unfold NULL in Hrange; lia].
    by destruct w.
Qed.

End Composition.

(** * The composition properties on concrete inputs *)

Lemma allocators_allocate_witness :
  PlatformOk (arena 64) ∧
  ∃ s', sl_concat_string (P := arena 64) 1 2 foo_bar_state = Some (3, s') ∧
        st_heap foo_bar_state !! 3 = None ∧
        ∃ b, s' = set_heap (<[3 := b]> (st_heap foo_bar_state)) foo_bar_state.
Proof.
  pose proof (arena_ok 64 ltac:(lia)) as HP. split; [exact HP|].
  eassert (sl_concat_string (P := arena 64) 1 2 foo_bar_state = Some (3, _))
    as Hrun by (vm_compute; reflexivity).
  eexists. split; [exact Hrun|].
  destruct (allocators_allocate (HP := HP)) as (_ & _ & Hcat & _).
  destruct (Hcat 1 2 foo_bar_state _ _ (foo_bar_wf 64 ltac:(lia)) Hrun)
    as [[Hnull _]|(_ & Hfresh & b & _ & Hs')].
  - discriminate Hnull.
  - split; [exact Hfresh|]. exists b. exact Hs'.
Defined.

Lemma release_undoes_allocation_witness :
  heap_wf (P := arena 64) (st_heap foo_bar_state) ∧
  ∃ s', sl_concat_string (P := arena 64) 1 2 foo_bar_state = Some (3, s') ∧
        sl_free 3 s' = Some (tt, foo_bar_state).
Proof.
  pose proof (foo_bar_wf 64 ltac:(lia)) as Hwf. split; [exact Hwf|].
  eassert (sl_concat_string (P := arena 64) 1 2 foo_bar_state = Some (3, _))
    as Hrun by (vm_compute; reflexivity).
  eexists. split; [exact Hrun|].
  match type of Hrun with
  | _ = Some (_, ?s') =>
      destruct (release_undoes_allocation (HP := arena_ok 64 ltac:(lia))
                  foo_bar_state 3 s' Hwf) as (_ & _ & Hcat & _)
  end.
  exact (Hcat 1 2 Hrun).
Defined.

Lemma concat_reads_back_witness :
  heap_wf (P := arena 64) (st_heap foo_bar_state) ∧
  ∃ s', sl_concat_string (P := arena 64) 1 NULL foo_bar_state = Some (3, s') ∧
        string_at (st_heap s') 3 = Some (String.list_ascii_of_string "foo") ∧
        strlen 3 s' = Some (3, s').
Proof.
  pose proof (foo_bar_wf 64 ltac:(lia)) as Hwf. split; [exact Hwf|].
  destruct (concat_reads_back (HP := arena_ok 64 ltac:(lia)) 1 NULL
              foo_bar_state (String.list_ascii_of_string "foo") []
              Hwf ltac:(by left) eq_refl eq_refl)
    as [[Hnull _]|(p & s' & Hp & _ & _ & Hrun & _ & Hread & Hlen & _)].
  - vm_compute in Hnull. discriminate Hnull.
  - vm_compute in Hp. subst p. exists s'.
    split; [exact Hrun|]. split; [exact Hread|exact Hlen].
Defined.

Lemma concat_associative_witness :
  heap_wf (P := arena 64) (st_heap foo_bar_state) ∧
  ∃ ab s1 ab_c s2 bc s3 a_bc s4,
    sl_concat_string (P := arena 64) NULL NULL foo_bar_state = Some (ab, s1) ∧
    sl_concat_string (P := arena 64) ab 1 s1 = Some (ab_c, s2) ∧
    sl_concat_string (P := arena 64) NULL 1 foo_bar_state = Some (bc, s3) ∧
    sl_concat_string (P := arena 64) NULL bc s3 = Some (a_bc, s4) ∧
    ab = NULL ∧
    string_at (st_heap s2) ab_c = Some (String.list_ascii_of_string "foo") ∧
    string_at (st_heap s4) a_bc = Some (String.list_ascii_of_string "foo").
Proof.
  pose proof (foo_bar_wf 64 ltac:(lia)) as Hwf. split; [exact Hwf|].
  assert (sl_concat_string (P := arena 64) NULL NULL foo_bar_state
          = Some (NULL, foo_bar_state)) as H1 by reflexivity.
  eassert (sl_concat_string (P := arena 64) NULL 1 foo_bar_state = Some (3, _))
    as H2 by (vm_compute; reflexivity).
  pose proof H2 as H3.
  match type of H3 with
  | _ = Some (_, ?s3) =>
      eassert (sl_concat_string (P := arena 64) NULL 3 s3 = Some (4, _))
        as H4 by (vm_compute; reflexivity)
  end.
  destruct (concat_associative (HP := arena_ok 64 ltac:(lia))
              NULL NULL 1 foo_bar_state [] []
              (String.list_ascii_of_string "foo")
              _ _ _ _ _ _ _ _ Hwf eq_refl eq_refl eq_refl
              H1 ltac:(by right) H2 ltac:(by left)
              H3 ltac:(by left) H4 ltac:(by left))
    as (_ & _ & Hl & Hr & _).
  eexists _, _, _, _, _, _, _, _.
  split; [exact H1|]. split; [exact H2|]. split; [exact H3|].
  split; [exact H4|]. split; [reflexivity|].
  split; [exact (Hl ltac:(done))|exact (Hr ltac:(done))].
Defined.

Lemma compare_copy_equal_witness :
  heap_wf (P := arena 64) (st_heap foo_bar_state) ∧
  ∃ s1, sl_alloc_string (P := arena 64) 1 foo_bar_state = Some (3, s1) ∧
        sl_compare_string 3 1 s1 = Some (0, s1) ∧
        sl_compare_string 1 3 s1 = Some (0, s1).
Proof.
  pose proof (foo_bar_wf 64 ltac:(lia)) as Hwf. split; [exact Hwf|].
  eassert (sl_alloc_string (P := arena 64) 1 foo_bar_state = Some (3, _))
    as Hrun by (vm_compute; reflexivity).
  eexists. split; [exact Hrun|].
  destruct (compare_copy_equal (HP := arena_ok 64 ltac:(lia)) 1 foo_bar_state
              (String.list_ascii_of_string "foo") 3 _
              Hwf ltac:(done) eq_refl Hrun ltac:(done))
    as (_ & Hl & Hr & _).
  split; [exact Hl|exact Hr].
Defined.

Lemma compare_swap_witness :
  sl_compare_string 1 2 foo_bar_state = Some (4, foo_bar_state) ∧
  ∃ r', sl_compare_string 2 1 foo_bar_state = Some (r', foo_bar_state) ∧
        r' = - 4.
Proof.
  assert (sl_compare_string 1 2 foo_bar_state = Some (4, foo_bar_state))
    as Hrun by reflexivity.
  split; [exact Hrun|].
  destruct (compare_swap 1 2 foo_bar_state 4 foo_bar_state Hrun)
    as (_ & (r' & Hswap & _ & Hneg & _) & _).
  exists r'. split; [exact Hswap|]. by apply Hneg.
Defined.

Lemma log_replays_ledger_witness :
  ∃ tr s', exec_calls (P := arena 64) small_run initial_state = Some (tr, s') ∧
           Z.of_nat (length (st_err s')) = 4 ∧
           allocation_count (st_ledger s') = 1 ∧
           st_ledger s' = fold_left (replay (P := arena 64)) (st_err s')
                            (st_ledger initial_state).
Proof.
  eassert (exec_calls (P := arena 64) small_run initial_state = Some (_, _))
    as Hrun by (vm_compute; reflexivity).
  match type of Hrun with
  | _ = Some (?tr, ?s') =>
      exists tr, s';
      destruct (log_replays_ledger (P := arena 64) small_run initial_state
                  tr s' ltac:(vm_compute; split; discriminate) Hrun)
        as (lines & Hlog & Hlen & Hreplay & Hcount)
  end.
  simpl in Hlog. subst lines.
  split; [exact Hrun|]. split; [exact Hlen|].
  split; [exact Hcount|exact Hreplay].
Defined.

Lemma untracked_block_underflows_witness :
  heap_wf (P := arena 64) (st_heap foo_bar_state) ∧
  ∃ s1 s2,
    sl_alloc_string (P := arena 64) 1 foo_bar_state = Some (3, s1) ∧
    sl_debug_free (P := arena 64) 3 "main.sl" 9 s1 = Some (tt, s2) ∧
    allocation_count (st_ledger s2) = 18446744073709551615 ∧
    st_heap s2 = st_heap foo_bar_state.
Proof.
  pose proof (foo_bar_wf 64 ltac:(lia)) as Hwf. split; [exact Hwf|].
  eassert (sl_alloc_string (P := arena 64) 1 foo_bar_state = Some (3, _))
    as Hrun by (vm_compute; reflexivity).
  destruct (untracked_block_underflows (HP := arena_ok 64 ltac:(lia))
              1 foo_bar_state 3 _ "main.sl" 9 Hwf eq_refl Hrun ltac:(done))
    as (s2 & Hfree & _ & Hcount & _ & Hheap).
  eexists _, s2. split; [exact Hrun|]. split; [exact Hfree|].
  split; [exact Hcount|exact Hheap].
Defined.

Lemma zeroed_array_as_string_witness :
  heap_wf (P := arena 64) (st_heap foo_bar_state) ∧
  ∃ s', sl_alloc_array (P := arena 64) 4 3 foo_bar_state = Some (3, s') ∧
        sl_alloc_array (P := arena 64) 3 4 foo_bar_state = Some (3, s') ∧
        string_at (st_heap s') 3 = Some [].
Proof.
  pose proof (foo_bar_wf 64 ltac:(lia)) as Hwf. split; [exact Hwf|].
  eassert (sl_alloc_array (P := arena 64) 4 3 foo_bar_state = Some (3, _))
    as Hrun by (vm_compute; reflexivity).
  eexists. split; [exact Hrun|].
  destruct (zeroed_array_as_string (HP := arena_ok 64 ltac:(lia))
              4 3 foo_bar_state 3 _ Hwf Hrun ltac:(done))
    as (Hswap & _ & Hread & _).
  split; [exact Hswap|]. apply Hread. vm_compute. discriminate.
Defined.

Lemma print_concat_witness :
  heap_wf (P := arena 64) (st_heap (w_mem foo_bar_world)) ∧
  ∃ w1 w2,
    in_world (sl_concat_string (P := arena 64) 1 2) foo_bar_world
    = Some (3, w1) ∧
    sl_print_string 3 w1 = Some w2 ∧
    w_out w2 = String.list_ascii_of_string "foobar" ++ [newline].
Proof.
  pose proof (foo_bar_wf 64 ltac:(lia)) as Hwf. split; [exact Hwf|].
  eassert (in_world (sl_concat_string (P := arena 64) 1 2) foo_bar_world
           = Some (3, _)) as Hrun by (vm_compute; reflexivity).
  destruct (print_concat (HP := arena_ok 64 ltac:(lia)) 1 2 foo_bar_world
              (String.list_ascii_of_string "foo")
              (String.list_ascii_of_string "bar") 3 _
              Hwf eq_refl eq_refl Hrun) as [Hprint _].
  eexists _, _. split; [exact Hrun|]. split; [exact (Hprint ltac:(done))|].
  reflexivity.
Defined.
